(** * Z80 target-memory models of sjasmplus ([sjasm/memory.h])

    A shallow embedding of the classes [MemModel], [PlainMemModel],
    [ZXMemModel] and [MemoryManager], followed by the properties of byte
    writes, ephemeral roll-back, address translation and paging checks. *)

From stdpp Require Import base tactics option list numbers strings pretty gmap.

Local Open Scope Z_scope.

(** Linear arithmetic with division and remainder by constants. *)
Ltac zlia := Z.to_euclidean_division_equations; lia.

(** ** Fixed-width integers

    [uint8_t], [uint16_t] and [size_t] values are integers of [Z]; a
    conversion to one of these types reduces modulo the width.  [off_t] is
    the signed 64-bit reading of a [size_t]. *)

Definition u8 (x : Z) : Z := x mod 0x100.
Definition u16 (x : Z) : Z := x mod 0x10000.
Definition size_t (x : Z) : Z := x mod 2 ^ 64.
Definition off_t (x : Z) : Z :=
  let y := x mod 2 ^ 64 in if decide (y < 2 ^ 63) then y else y - 2 ^ 64.

Definition is_u8 (x : Z) : Prop := 0 <= x < 0x100.
Definition is_u16 (x : Z) : Prop := 0 <= x < 0x10000.

(** ** Outcomes of a call

    A member function either returns ([Done]), ends the assembler run through
    [Fatal()] of errors.h ([Fatal], with the diagnostic), or indexes a
    container outside its bounds or dereferences a null pointer
    ([Undefined]). *)

Inductive outcome (A : Type) : Type :=
  | Done (a : A)
  | Fatal (msg : string)
  | Undefined.

Arguments Done {A} a.
Arguments Fatal {A} msg.
Arguments Undefined {A}.

#[global] Instance outcome_ret : MRet outcome := λ A, Done.

#[global] Instance outcome_bind : MBind outcome := λ A B f x,
  match x with
  | Done a => f a
  | Fatal msg => Fatal msg
  | Undefined => Undefined
  end.

#[global] Instance outcome_fmap : FMap outcome := λ A B f x,
  match x with
  | Done a => Done (f a)
  | Fatal msg => Fatal msg
  | Undefined => Undefined
  end.

(** [l[i]] and [l[i] = x] for [std::array], [std::vector], [std::bitset] and
    plain arrays: no bounds check in the source, so an index outside the
    container is [Undefined]. *)

Definition elem {A} (l : list A) (i : Z) : outcome A :=
  if decide (0 <= i) then from_option Done Undefined (l !! Z.to_nat i)
  else Undefined.

Definition assign {A} (l : list A) (i : Z) (x : A) : outcome (list A) :=
  if decide (0 <= i < Z.of_nat (length l)) then Done (<[Z.to_nat i := x]> l)
  else Undefined.

(** [for (i = start; i < start + n; i++) body] with the state threaded
    through; the first [Fatal] or [Undefined] ends the loop. *)

Fixpoint for_loop {St} (n : nat) (i : Z) (body : Z → St → outcome St) (s : St)
    : outcome St :=
  match n with
  | O => Done s
  | S n' => s' ← body i s; for_loop n' (i + 1) body s'
  end.

(** ** [PlainMemModel]: plain 64K without paging *)

Module Plain.

Record PlainMemModel := {
  Memory : list Z;         (* std::array<uint8_t, 0x10000> *)
  MemUsage : list bool     (* std::bitset<0x10000> *)
}.

Definition MemorySize : Z := 0x10000.

(** The two containers have their declared number of elements. *)
Definition wf (m : PlainMemModel) : Prop :=
  length (Memory m) = Z.to_nat MemorySize ∧
  length (MemUsage m) = Z.to_nat MemorySize.

Definition isPagedMemory (m : PlainMemModel) : bool := false.

Definition getNumMemPages (m : PlainMemModel) : Z := 0.

Definition getDefaultSlot (m : PlainMemModel) : Z := 0.

Definition getPageNumInSlot (m : PlainMemModel) (Slot : Z) : Z := 0.

Definition setPage (m : PlainMemModel) (Slot Page : Z)
    : option string * PlainMemModel :=
  (Some "The PLAIN memory model does not support page switching"%string, m).

Definition setPage_addr (m : PlainMemModel) (currentAddr Page : Z)
    : option string * PlainMemModel :=
  setPage m 0 0.

Definition validateSlot (m : PlainMemModel) (Slot : Z)
    : option string * PlainMemModel :=
  setPage m 0 0.

Definition getPageForAddress (m : PlainMemModel) (CurrentAddr : Z) : Z := 0.

Definition readByte (m : PlainMemModel) (Addr : Z) : outcome Z :=
  elem (Memory m) Addr.

(** [Dest] is the list of the bytes stored so far; [Addr + i] is an [int]. *)
Definition getBytes (m : PlainMemModel) (Addr Size : Z) : outcome (list Z) :=
  for_loop (Z.to_nat Size) 0
    (λ i Dest, b ← elem (Memory m) (Addr + i); Done (Dest ++ [b])) [].

Definition getPtrToMem (m : PlainMemModel) : list Z := Memory m.

Definition clear (m : PlainMemModel) : PlainMemModel :=
  {| Memory := replicate (length (Memory m)) 0;
     MemUsage := replicate (length (MemUsage m)) false |}.

(** The constructor: the two members, then [clear()]. *)
Definition new : PlainMemModel :=
  clear {| Memory := replicate (Z.to_nat MemorySize) 0;
           MemUsage := replicate (Z.to_nat MemorySize) false |}.

Definition writeByte (m : PlainMemModel) (Addr Byte : Z) (Ephemeral : bool)
    : outcome PlainMemModel :=
  mem ← assign (Memory m) Addr Byte;
  if negb Ephemeral then
    use ← assign (MemUsage m) Addr true;
    Done {| Memory := mem; MemUsage := use |}
  else Done {| Memory := mem; MemUsage := MemUsage m |}.

Definition usedAddr (m : PlainMemModel) (Addr : Z) : outcome bool :=
  elem (MemUsage m) Addr.

Definition clearEphemerals (m : PlainMemModel) : outcome PlainMemModel :=
  for_loop (length (Memory m)) 0
    (λ i m,
       used ← elem (MemUsage m) i;
       if negb used then
         mem ← assign (Memory m) i 0;
         Done {| Memory := mem; MemUsage := MemUsage m |}
       else Done m) m.

End Plain.

(** ** [ZXMemModel]: ZX Spectrum 128, 256, 512, 1024 with 4 slots of 16K *)

Module ZX.

Record ZXMemModel := {
  NumPages : Z;
  NumSlots : Z;
  SlotPages : list Z;      (* int SlotPages[4] *)
  Memory : list Z;         (* std::vector<uint8_t> *)
  MemUsage : list bool     (* std::vector<bool> *)
}.

Definition PageSize : Z := 0x4000.

(** Every slot holds a page of the model, and the two vectors hold
    [NumPages] pages. *)
Definition wf (m : ZXMemModel) : Prop :=
  NumSlots m = 4 ∧
  length (SlotPages m) = 4%nat ∧
  Forall (λ p, 0 <= p < NumPages m) (SlotPages m) ∧
  Z.of_nat (length (Memory m)) = NumPages m * PageSize ∧
  length (MemUsage m) = length (Memory m) ∧
  NumPages m * PageSize < 2 ^ 63.

(** The operands are converted to [size_t] ([PageSize] is one), the result
    to [off_t]. *)
Definition addrToOffset (m : ZXMemModel) (Addr : Z) : outcome Z :=
  p ← elem (SlotPages m) (Addr / PageSize);
  Done (off_t (size_t (size_t (size_t p * PageSize) + Addr mod PageSize))).

Definition readByte (m : ZXMemModel) (Addr : Z) : outcome Z :=
  i ← addrToOffset m Addr; elem (Memory m) i.

(** [readByte(Addr + i)]: the [int] sum is converted to the [uint16_t]
    parameter. *)
Definition getBytes (m : ZXMemModel) (Addr Size : Z) : outcome (list Z) :=
  for_loop (Z.to_nat Size) 0
    (λ i Dest, b ← readByte m (u16 (Addr + i)); Done (Dest ++ [b])) [].

(** The slot form: [addr] is the [size_t] sum cut to [uint16_t]. *)
Definition getBytes_slot (m : ZXMemModel) (Slot AddrInPage Size : Z)
    : outcome (list Z) :=
  let addr := u16 (size_t (AddrInPage + size_t (size_t Slot * PageSize))) in
  for_loop (Z.to_nat Size) 0
    (λ i Dest, b ← readByte m (u16 (addr + i)); Done (Dest ++ [b])) [].

Definition getPtrToMem (m : ZXMemModel) : list Z := Memory m.

Definition clear (m : ZXMemModel) : ZXMemModel :=
  {| NumPages := NumPages m; NumSlots := NumSlots m; SlotPages := SlotPages m;
     Memory := replicate (length (Memory m)) 0;
     MemUsage := replicate (length (MemUsage m)) false |}.

Definition with_mem (m : ZXMemModel) (mem : list Z) (use : list bool)
    : ZXMemModel :=
  {| NumPages := NumPages m; NumSlots := NumSlots m; SlotPages := SlotPages m;
     Memory := mem; MemUsage := use |}.

Definition writeByte (m : ZXMemModel) (Addr Byte : Z) (Ephemeral : bool)
    : outcome ZXMemModel :=
  i ← addrToOffset m Addr;
  mem ← assign (Memory m) i Byte;
  if negb Ephemeral then
    use ← assign (MemUsage m) i true;
    Done (with_mem m mem use)
  else Done (with_mem m mem (MemUsage m)).

Definition usedAddr (m : ZXMemModel) (Addr : Z) : outcome bool :=
  i ← addrToOffset m Addr; elem (MemUsage m) i.

Definition clearEphemerals (m : ZXMemModel) : outcome ZXMemModel :=
  for_loop (length (Memory m)) 0
    (λ i m,
       used ← elem (MemUsage m) i;
       if negb used then
         mem ← assign (Memory m) i 0;
         Done (with_mem m mem (MemUsage m))
       else Done m) m.

Definition offset_msg (Offset : Z) : string :=
  "In-page offset " +:+ pretty Offset
    +:+ " does not fit in page of size " +:+ pretty PageSize.

Definition writeByteToPage (m : ZXMemModel) (Page Offset Byte : Z)
    : outcome ZXMemModel :=
  if decide (Offset >= PageSize) then Fatal (offset_msg Offset)
  else
    let i := size_t (size_t (PageSize * size_t Page) + Offset) in
    mem ← assign (Memory m) i Byte;
    use ← assign (MemUsage m) i true;
    Done (with_mem m mem use).

Definition memcpyToPage (m : ZXMemModel) (Page Offset : Z) (Src : list Z)
    (Size : Z) : outcome ZXMemModel :=
  for_loop (Z.to_nat Size) 0
    (λ i m, b ← elem Src i; writeByteToPage m Page (u16 (Offset + i)) b) m.

Definition memsetInPage (m : ZXMemModel) (Page Offset Byte Size : Z)
    : outcome ZXMemModel :=
  for_loop (Z.to_nat Size) 0
    (λ i m, writeByteToPage m Page (u16 (Offset + i)) Byte) m.

Definition isPagedMemory (m : ZXMemModel) : bool := true.

Definition getNumMemPages (m : ZXMemModel) : Z := NumPages m.

Definition getDefaultSlot (m : ZXMemModel) : Z := 3.

Definition getPageNumInSlot (m : ZXMemModel) (Slot : Z) : outcome Z :=
  elem (SlotPages m) Slot.

(** Modelled from the spec: the constructor [ZXMemModel(Name, NPages)], whose
    body is in memory.cpp.  The spec gives the model a buffer of
    [NumPages * PageSize] bytes and a used-bitmap of the same size;
    [NumSlots] and [SlotPages] take the initialisers of the class
    declaration. *)
Definition new (NPages : Z) : ZXMemModel :=
  {| NumPages := NPages; NumSlots := 4; SlotPages := [0; 5; 2; 7];
     Memory := replicate (Z.to_nat (NPages * PageSize)) 0;
     MemUsage := replicate (Z.to_nat (NPages * PageSize)) false |}.

(** Modelled from the spec: [getPageForAddress], declared in the class and
    defined in memory.cpp: the page number currently mapped to the slot of
    the address. *)
Definition getPageForAddress (m : ZXMemModel) (CurrentAddr : Z) : outcome Z :=
  elem (SlotPages m) (CurrentAddr / PageSize).

(** Modelled from the spec: [validateSlot], declared in the class and defined
    in memory.cpp: an error message if the slot is out of range, otherwise
    none.  The text of the message is not given; it is the argument
    [slot_error]. *)
Definition validateSlot (slot_error : Z → string) (m : ZXMemModel) (Slot : Z)
    : option string :=
  if decide (0 <= Slot < NumSlots m) then None else Some (slot_error Slot).

End ZX.

(** ** [MemModel]: the interface, dispatching to the two variants *)

Module MemModel.

Inductive MemModel :=
  | PlainModel (p : Plain.PlainMemModel)
  | ZXModel (z : ZX.ZXMemModel).

Definition wf (m : MemModel) : Prop :=
  match m with
  | PlainModel p => Plain.wf p
  | ZXModel z => ZX.wf z
  end.

Definition isPagedMemory (m : MemModel) : bool :=
  match m with
  | PlainModel p => Plain.isPagedMemory p
  | ZXModel z => ZX.isPagedMemory z
  end.

Definition getNumMemPages (m : MemModel) : Z :=
  match m with
  | PlainModel p => Plain.getNumMemPages p
  | ZXModel z => ZX.getNumMemPages z
  end.

Definition getDefaultSlot (m : MemModel) : Z :=
  match m with
  | PlainModel p => Plain.getDefaultSlot p
  | ZXModel z => ZX.getDefaultSlot z
  end.

Definition readByte (m : MemModel) (Addr : Z) : outcome Z :=
  match m with
  | PlainModel p => Plain.readByte p Addr
  | ZXModel z => ZX.readByte z Addr
  end.

Definition writeByte (m : MemModel) (Addr Byte : Z) (Ephemeral : bool)
    : outcome MemModel :=
  match m with
  | PlainModel p => PlainModel <$> Plain.writeByte p Addr Byte Ephemeral
  | ZXModel z => ZXModel <$> ZX.writeByte z Addr Byte Ephemeral
  end.

Definition writeWord (m : MemModel) (Addr Word : Z) (Ephemeral : bool)
    : outcome MemModel :=
  m ← writeByte m Addr (u8 (Z.land Word 0xff)) Ephemeral;
  writeByte m (u16 (Addr + 1)) (u8 (Z.shiftr Word 8)) Ephemeral.

Definition usedAddr (m : MemModel) (Addr : Z) : outcome bool :=
  match m with
  | PlainModel p => Plain.usedAddr p Addr
  | ZXModel z => ZX.usedAddr z Addr
  end.

Definition clearEphemerals (m : MemModel) : outcome MemModel :=
  match m with
  | PlainModel p => PlainModel <$> Plain.clearEphemerals p
  | ZXModel z => ZXModel <$> ZX.clearEphemerals z
  end.

Definition memcpyToMemory (m : MemModel) (Offset : Z) (Src : list Z) (Size : Z)
    : outcome MemModel :=
  for_loop (Z.to_nat Size) 0
    (λ i m, b ← elem Src i; writeByte m (u16 (Offset + i)) b false) m.

Definition memsetInMemory (m : MemModel) (Offset Byte Size : Z)
    : outcome MemModel :=
  for_loop (Z.to_nat Size) 0
    (λ i m, writeByte m (u16 (Offset + i)) Byte false) m.

Definition validateSlot (slot_error : Z → string) (m : MemModel) (Slot : Z)
    : option string :=
  match m with
  | PlainModel p => (Plain.validateSlot p Slot).1
  | ZXModel z => ZX.validateSlot slot_error z Slot
  end.

Definition getBytes (m : MemModel) (Addr Size : Z) : outcome (list Z) :=
  match m with
  | PlainModel p => Plain.getBytes p Addr Size
  | ZXModel z => ZX.getBytes z Addr Size
  end.

Definition getPtrToMem (m : MemModel) : list Z :=
  match m with
  | PlainModel p => Plain.getPtrToMem p
  | ZXModel z => ZX.getPtrToMem z
  end.

Definition clear (m : MemModel) : MemModel :=
  match m with
  | PlainModel p => PlainModel (Plain.clear p)
  | ZXModel z => ZXModel (ZX.clear z)
  end.

(** The used-markers of the model, one per byte of [getPtrToMem]. *)
Definition usage (m : MemModel) : list bool :=
  match m with
  | PlainModel p => Plain.MemUsage p
  | ZXModel z => ZX.MemUsage z
  end.

(** The index of [getPtrToMem] that [readByte], [writeByte] and [usedAddr]
    use for [Addr]: [Memory[Addr]] in the flat model,
    [Memory[addrToOffset(Addr)]] in the banked one. *)
Definition location (m : MemModel) (Addr : Z) : outcome Z :=
  match m with
  | PlainModel p => Done Addr
  | ZXModel z => ZX.addrToOffset z Addr
  end.

(** The number of slots of a model: the member [NumSlots] of the banked
    model.  The flat model has no such member: it has no page
    ([getNumMemPages()] is 0) and no slot. *)
Definition NumSlots (m : MemModel) : Z :=
  match m with
  | PlainModel p => 0
  | ZXModel z => ZX.NumSlots z
  end.

(** [n] calls of [clearEphemerals()] in a row. *)
Fixpoint clearEphemerals_times (n : nat) (m : MemModel) : outcome MemModel :=
  match n with
  | O => Done m
  | S n' => m' ← clearEphemerals m; clearEphemerals_times n' m'
  end.

End MemModel.

(** ** [MemoryManager]: the models by name and the current one

    [CurrentMemModel] points to one of the models of [MemModels]; it is kept
    as the name of that model, [None] for the null pointer. *)

Module MemoryManager.

Import MemModel.

Record MemoryManager := {
  MemModels : gmap string MemModel;
  CurrentMemModel : option string
}.

Definition isActive (mm : MemoryManager) : bool :=
  bool_decide (is_Some (CurrentMemModel mm)).

Definition getMemModel (mm : MemoryManager) : outcome MemModel :=
  match CurrentMemModel mm with
  | Some name => from_option Done Undefined (MemModels mm !! name)
  | None => Undefined
  end.

(** A call through [CurrentMemModel] changes the model it points to. *)
Definition setCurrent (mm : MemoryManager) (m : MemModel)
    : outcome MemoryManager :=
  match CurrentMemModel mm with
  | Some name =>
      Done {| MemModels := <[name := m]> (MemModels mm);
              CurrentMemModel := Some name |}
  | None => Undefined
  end.

Definition isPagedMemory (mm : MemoryManager) : outcome bool :=
  m ← getMemModel mm; Done (MemModel.isPagedMemory m).

Definition numMemPages (mm : MemoryManager) : outcome Z :=
  m ← getMemModel mm; Done (MemModel.getNumMemPages m).

Definition defaultSlot (mm : MemoryManager) : outcome Z :=
  m ← getMemModel mm; Done (MemModel.getDefaultSlot m).

Definition getBytes (mm : MemoryManager) (Addr Size : Z) : outcome (list Z) :=
  m ← getMemModel mm; MemModel.getBytes m Addr Size.

Definition clear (mm : MemoryManager) : outcome MemoryManager :=
  m ← getMemModel mm; setCurrent mm (MemModel.clear m).

Definition writeByte (mm : MemoryManager) (Addr Byte : Z)
    : outcome MemoryManager :=
  m ← getMemModel mm;
  m' ← MemModel.writeByte m Addr Byte false;
  setCurrent mm m'.

(** A call on the reference that the public [getMemModel()] returns, as
    in [getMemModel().writeByte(Addr, Byte, Ephemeral)]: the call changes
    the model that [CurrentMemModel] points to. *)
Definition onMemModel (mm : MemoryManager)
    (call : MemModel → outcome MemModel) : outcome MemoryManager :=
  m ← getMemModel mm;
  m' ← call m;
  setCurrent mm m'.

End MemoryManager.

(** ** Sample states *)

(** The flat model and the 128K banked model as constructed, and a manager
    holding both with the flat one current. *)
Definition plain_model : MemModel.MemModel := MemModel.PlainModel Plain.new.

Definition zx128_model : MemModel.MemModel := MemModel.ZXModel (ZX.new 8).

Definition sample_manager : MemoryManager.MemoryManager :=
  {| MemoryManager.MemModels :=
       {[ "PLAIN"%string := plain_model; "ZXSPECTRUM128"%string := zx128_model ]};
     MemoryManager.CurrentMemModel := Some "PLAIN"%string |}.

(** What [clearEphemerals] leaves of a buffer: the bytes marked used. *)
Definition keep_used (use : list bool) (mem : list Z) : list Z :=
  zip_with (λ (u : bool) b, if u then b else 0) use mem.

(** The loop body of [memcpyToPage] and [memsetInPage], [val i] being the
    byte written at step [i], and what holds after [k] steps of it. *)
Definition page_loop_body (Page Offset : Z) (val : Z → outcome Z)
    (i : Z) (m0 : ZX.ZXMemModel) : outcome ZX.ZXMemModel :=
  b ← val i; ZX.writeByteToPage m0 Page (u16 (Offset + i)) b.

Definition page_loop_inv (m : ZX.ZXMemModel) (Page Offset : Z)
    (val : Z → outcome Z) (k : nat) (m' : ZX.ZXMemModel) : Prop :=
  ZX.wf m' ∧ ZX.NumPages m' = ZX.NumPages m ∧
  ∀ i : nat, (i < k)%nat →
    ∃ b, val (Z.of_nat i) = Done b ∧
         elem (ZX.Memory m') (Page * 0x4000 + u16 (Offset + Z.of_nat i)) = Done b ∧
         elem (ZX.MemUsage m') (Page * 0x4000 + u16 (Offset + Z.of_nat i)) = Done true.

(** A 128K banked model with page 5 in slots 1 and 2. *)
Definition zx128_aliased : ZX.ZXMemModel :=
  {| ZX.NumPages := 8; ZX.NumSlots := 4; ZX.SlotPages := [0; 5; 5; 7];
     ZX.Memory := replicate (Z.to_nat (8 * ZX.PageSize)) 0;
     ZX.MemUsage := replicate (Z.to_nat (8 * ZX.PageSize)) false |}.

(** The loop body of [memcpyToMemory] and [memsetInMemory], [val i] being
    the byte written at step [i], and what holds after [k] steps of it: the
    markers of the written places are set, the other places are as in [m],
    and a written place holds the byte of one of the writes to it. *)
Definition bulk_loop_body (Offset : Z) (val : Z → outcome Z)
    (i : Z) (m0 : MemModel.MemModel) : outcome MemModel.MemModel :=
  b ← val i; MemModel.writeByte m0 (u16 (Offset + i)) b false.

Definition bulk_loop_inv (m : MemModel.MemModel) (Offset : Z)
    (val : Z → outcome Z) (k : nat) (m' : MemModel.MemModel) : Prop :=
  MemModel.wf m' ∧
  MemModel.isPagedMemory m' = MemModel.isPagedMemory m ∧
  (∀ b, MemModel.location m' b = MemModel.location m b) ∧
  length (MemModel.getPtrToMem m') = length (MemModel.getPtrToMem m) ∧
  (∀ j, 0 <= j →
     (∀ i : nat, (i < k)%nat →
        MemModel.location m (u16 (Offset + Z.of_nat i)) ≠ Done j) →
     elem (MemModel.getPtrToMem m') j = elem (MemModel.getPtrToMem m) j ∧
     elem (MemModel.usage m') j = elem (MemModel.usage m) j) ∧
  (∀ i : nat, (i < k)%nat →
     ∃ li b (i' : nat),
       MemModel.location m (u16 (Offset + Z.of_nat i)) = Done li ∧
       elem (MemModel.usage m') li = Done true ∧
       elem (MemModel.getPtrToMem m') li = Done b ∧
       (i ≤ i' < k)%nat ∧
       MemModel.location m (u16 (Offset + Z.of_nat i')) = Done li ∧
       val (Z.of_nat i') = Done b).

(** ** [ListingWriter] ([src/listing.h]): the macro nesting of the listing

    The members the inline functions use; [MacroStack] has its top first. *)

Module Listing.

Record ListingWriter := {
  IsActive : bool;
  OmitLine : bool;
  InMacro : bool;
  MacroStack : list bool;      (* std::stack<bool> *)
  ByteBuffer : list Z;         (* std::vector<uint8_t> *)
  PreviousAddress : Z;
  epadres : Z;
  NumDigitsInLineNumber : Z
}.

Definition setPreviousAddress (w : ListingWriter) (Value : Z) : ListingWriter :=
  {| IsActive := IsActive w; OmitLine := OmitLine w; InMacro := InMacro w;
     MacroStack := MacroStack w; ByteBuffer := ByteBuffer w;
     PreviousAddress := Value; epadres := epadres w;
     NumDigitsInLineNumber := NumDigitsInLineNumber w |}.

Definition omitLine (w : ListingWriter) : ListingWriter :=
  {| IsActive := IsActive w; OmitLine := true; InMacro := InMacro w;
     MacroStack := MacroStack w; ByteBuffer := ByteBuffer w;
     PreviousAddress := PreviousAddress w; epadres := epadres w;
     NumDigitsInLineNumber := NumDigitsInLineNumber w |}.

Definition with_macro (w : ListingWriter) (inMacro : bool) (stack : list bool)
    : ListingWriter :=
  {| IsActive := IsActive w; OmitLine := OmitLine w; InMacro := inMacro;
     MacroStack := stack; ByteBuffer := ByteBuffer w;
     PreviousAddress := PreviousAddress w; epadres := epadres w;
     NumDigitsInLineNumber := NumDigitsInLineNumber w |}.

Definition startMacro (w : ListingWriter) : ListingWriter :=
  with_macro w true (InMacro w :: MacroStack w).

Definition endMacro (w : ListingWriter) : ListingWriter :=
  match MacroStack w with
  | top :: rest => with_macro w top rest
  | [] => with_macro w false []
  end.

End Listing.

(** A listing writer outside any macro. *)
Definition sample_listing : Listing.ListingWriter :=
  {| Listing.IsActive := true; Listing.OmitLine := false;
     Listing.InMacro := false; Listing.MacroStack := [];
     Listing.ByteBuffer := []; Listing.PreviousAddress := 0;
     Listing.epadres := 0; Listing.NumDigitsInLineNumber := 0 |}.

(** * Properties *)

(** ** Containers, loops and integer conversions *)

Section containers.
Context {A : Type}.
Implicit Types (l : list A) (i j : Z) (x : A).

Lemma elem_lookup l i x :
  0 <= i → l !! Z.to_nat i = Some x → elem l i = Done x.
Proof. intros Hi Hx. unfold elem. rewrite decide_True by done. by rewrite Hx. Qed.

Lemma elem_in_range l i :
  0 <= i < Z.of_nat (length l) →
  ∃ x, elem l i = Done x ∧ l !! Z.to_nat i = Some x.
Proof.
  intros Hi. destruct (lookup_lt_is_Some_2 l (Z.to_nat i)) as [x Hx]; [lia|].
  exists x. split; [|done]. apply elem_lookup; [lia|done].
Qed.

Lemma elem_out_of_range l i : Z.of_nat (length l) <= i → elem l i = Undefined.
Proof.
  intros Hi. unfold elem. rewrite decide_True by lia.
  by rewrite lookup_ge_None_2 by lia.
Qed.

Lemma elem_Done_inv l i x :
  elem l i = Done x → 0 <= i < Z.of_nat (length l) ∧ l !! Z.to_nat i = Some x.
Proof.
  unfold elem. case_decide; [|done].
  destruct (l !! Z.to_nat i) as [y|] eqn:Hy; simpl; [|done].
  intros [= ->]. split; [|done]. apply lookup_lt_Some in Hy. lia.
Qed.

Lemma assign_in_range l i x :
  0 <= i < Z.of_nat (length l) → assign l i x = Done (<[Z.to_nat i := x]> l).
Proof. intros Hi. unfold assign. by rewrite decide_True. Qed.

Lemma elem_insert_eq l i x :
  0 <= i < Z.of_nat (length l) → elem (<[Z.to_nat i := x]> l) i = Done x.
Proof.
  intros Hi. apply elem_lookup; [lia|]. apply list_lookup_insert_eq. lia.
Qed.

Lemma elem_insert_ne l i j x :
  0 <= i → 0 <= j → i ≠ j → elem (<[Z.to_nat i := x]> l) j = elem l j.
Proof.
  intros Hi Hj Hne. unfold elem.
  by rewrite list_lookup_insert_ne by lia.
Qed.

End containers.

Lemma for_loop_from {St} (I : nat → St → Prop) body (n k0 : nat) (s : St) :
  I k0 s →
  (∀ (k : nat) s, (k0 ≤ k < k0 + n)%nat → I k s →
     ∃ s', body (Z.of_nat k) s = Done s' ∧ I (S k) s') →
  ∃ s', for_loop n (Z.of_nat k0) body s = Done s' ∧ I (k0 + n)%nat s'.
Proof.
  revert k0 s. induction n as [|n IH]; intros k0 s H0 Hstep; simpl.
  - exists s. by rewrite Nat.add_0_r.
  - destruct (Hstep k0 s) as (s1 & -> & H1); [lia|done|]. simpl.
    replace (Z.of_nat k0 + 1) with (Z.of_nat (S k0)) by lia.
    destruct (IH (S k0) s1) as (s2 & -> & H2); [done| |].
    + intros k s' Hk. apply Hstep. lia.
    + exists s2. split; [done|]. by replace (k0 + S n)%nat with (S k0 + n)%nat by lia.
Qed.

Lemma for_loop_invariant {St} (I : nat → St → Prop) body (n : nat) (s : St) :
  I 0%nat s →
  (∀ (k : nat) s, (k < n)%nat → I k s →
     ∃ s', body (Z.of_nat k) s = Done s' ∧ I (S k) s') →
  ∃ s', for_loop n 0 body s = Done s' ∧ I n s'.
Proof.
  intros H0 Hstep.
  destruct (for_loop_from I body n 0 s) as (s' & Hs' & HI); [done| |by eauto].
  intros k s1 Hk. apply Hstep. lia.
Qed.

Lemma keep_used_lookup use mem (j : nat) :
  keep_used use mem !! j =
    match use !! j, mem !! j with
    | Some u, Some b => Some (if u : bool then b else 0)
    | _, _ => None
    end.
Proof.
  unfold keep_used. rewrite lookup_zip_with.
  destruct (use !! j), (mem !! j); done.
Qed.

Lemma keep_used_length use mem :
  length use = length mem → length (keep_used use mem) = length mem.
Proof. intros H. unfold keep_used. rewrite length_zip_with. lia. Qed.

Lemma keep_used_idemp use mem :
  keep_used use (keep_used use mem) = keep_used use mem.
Proof.
  apply list_eq. intros j. rewrite !keep_used_lookup.
  destruct (use !! j) as [[]|], (mem !! j); done.
Qed.

(** The loop of [clearEphemerals], on the two containers alone. *)
Lemma clear_loop_invariant use mem (k : nat) (cur : list Z) :
  length use = length mem → (k < length mem)%nat →
  length cur = length mem →
  (∀ j : nat, cur !! j = if decide (j < k)%nat then keep_used use mem !! j
                         else mem !! j) →
  ∃ u : bool, elem use (Z.of_nat k) = Done u ∧
    ∃ cur', (if negb u then assign cur (Z.of_nat k) 0 else Done cur) = Done cur' ∧
      length cur' = length mem ∧
      ∀ j : nat, cur' !! j = if decide (j < S k)%nat then keep_used use mem !! j
                             else mem !! j.
Proof.
  intros Hlen Hk Hcur Hinv.
  destruct (elem_in_range use (Z.of_nat k)) as (u & Hu & Hu'); [lia|].
  rewrite Nat2Z.id in Hu'.
  destruct (lookup_lt_is_Some_2 mem k) as [b Hb]; [done|].
  exists u. split; [done|]. destruct u; simpl.
  - exists cur. split; [done|]. split; [done|]. intros j. rewrite Hinv.
    destruct (decide (j = k)) as [->|].
    + rewrite decide_False by lia. rewrite decide_True by lia.
      by rewrite keep_used_lookup, Hu', Hb.
    + repeat case_decide; done || lia.
  - rewrite assign_in_range by lia. eexists. split; [done|].
    rewrite length_insert. split; [done|]. intros j. rewrite Nat2Z.id.
    destruct (decide (j = k)) as [->|].
    + rewrite list_lookup_insert_eq by lia. rewrite decide_True by lia.
      by rewrite keep_used_lookup, Hu', Hb.
    + rewrite list_lookup_insert_ne by done. rewrite Hinv.
      repeat case_decide; done || lia.
Qed.

Lemma clear_loop_final use mem (cur : list Z) :
  length use = length mem →
  length cur = length mem →
  (∀ j : nat, cur !! j = if decide (j < length mem)%nat
                         then keep_used use mem !! j else mem !! j) →
  cur = keep_used use mem.
Proof.
  intros Hlen Hcur Hinv. apply list_eq. intros j. rewrite Hinv.
  case_decide; [done|]. rewrite lookup_ge_None_2 by lia.
  symmetry. apply lookup_ge_None_2. rewrite keep_used_length by done. lia.
Qed.

(** ** The flat model *)

Lemma plain_clearEphemerals_spec (m : Plain.PlainMemModel) :
  length (Plain.MemUsage m) = length (Plain.Memory m) →
  Plain.clearEphemerals m =
    Done {| Plain.Memory := keep_used (Plain.MemUsage m) (Plain.Memory m);
            Plain.MemUsage := Plain.MemUsage m |}.
Proof.
  intros Hlen. unfold Plain.clearEphemerals.
  set (use := Plain.MemUsage m) in *. set (mem := Plain.Memory m) in *.
  destruct (for_loop_invariant
    (λ k m', Plain.MemUsage m' = use ∧ length (Plain.Memory m') = length mem ∧
       ∀ j : nat, Plain.Memory m' !! j =
         if decide (j < k)%nat then keep_used use mem !! j else mem !! j)
    (λ i m0,
       used ← elem (Plain.MemUsage m0) i;
       if negb used then
         mem ← assign (Plain.Memory m0) i 0;
         Done {| Plain.Memory := mem; Plain.MemUsage := Plain.MemUsage m0 |}
       else Done m0)
    (length mem) m) as (m' & -> & Huse & Hl & Hinv).
  - split; [done|]. split; [done|]. intros j. by rewrite decide_False by lia.
  - intros k [cur use'] Hk (Hu & Hl & Hinv); simpl in *. subst use'.
    destruct (clear_loop_invariant use mem k cur)
      as (u & -> & cur' & Hstep & Hl' & Hinv'); [done..|].
    simpl. destruct u; simpl in *.
    + injection Hstep as <-. eauto.
    + rewrite Hstep. simpl. eauto.
  - destruct m' as [cur use']; simpl in *. subst use'.
    by rewrite (clear_loop_final use mem cur).
Qed.

Lemma plain_wf_length (m : Plain.PlainMemModel) :
  Plain.wf m →
  Z.of_nat (length (Plain.Memory m)) = 0x10000 ∧
  length (Plain.MemUsage m) = length (Plain.Memory m).
Proof.
  intros [H1 H2]. rewrite H2, H1. split; [|done].
  by rewrite Z2Nat.id.
Qed.

Lemma plain_wf_new : Plain.wf Plain.new.
Proof.
  unfold Plain.wf, Plain.new, Plain.clear. cbn [Plain.Memory Plain.MemUsage].
  by rewrite !length_replicate.
Qed.

(** ** The banked model *)

Lemma zx_wf_new (NPages : Z) : 8 <= NPages < 2 ^ 48 → ZX.wf (ZX.new NPages).
Proof.
  intros H. unfold ZX.wf, ZX.new, ZX.PageSize.
  cbn [ZX.NumSlots ZX.SlotPages ZX.NumPages ZX.Memory ZX.MemUsage].
  rewrite !length_replicate. repeat split; try lia.
  repeat constructor; lia.
Qed.

Lemma zx_addrToOffset_spec (m : ZX.ZXMemModel) (a : Z) :
  ZX.wf m → is_u16 a →
  ∃ p, ZX.SlotPages m !! Z.to_nat (a / 0x4000) = Some p ∧
       0 <= p < ZX.NumPages m ∧
       ZX.addrToOffset m a = Done (p * 0x4000 + a mod 0x4000).
Proof.
  intros (_ & Hslots & Hpages & Hmem & _ & Hmax) Ha. unfold is_u16 in Ha.
  unfold ZX.addrToOffset, ZX.PageSize in *.
  destruct (elem_in_range (ZX.SlotPages m) (a / 0x4000)) as (p & -> & Hp);
    [rewrite Hslots; zlia|].
  exists p. split; [done|].
  assert (0 <= p < ZX.NumPages m) as Hr.
  { rewrite Forall_forall in Hpages. apply Hpages. by eapply list_elem_of_lookup_2. }
  split; [done|]. simpl. f_equal.
  assert (0 <= a mod 0x4000 < 0x4000) by zlia.
  unfold off_t, size_t.
  rewrite (Z.mod_small p) by lia.
  rewrite (Z.mod_small (p * _)) by lia.
  rewrite !(Z.mod_small (p * _ + _)) by lia.
  rewrite decide_True by lia. done.
Qed.

Lemma zx_clearEphemerals_spec (m : ZX.ZXMemModel) :
  length (ZX.MemUsage m) = length (ZX.Memory m) →
  ZX.clearEphemerals m =
    Done (ZX.with_mem m (keep_used (ZX.MemUsage m) (ZX.Memory m)) (ZX.MemUsage m)).
Proof.
  intros Hlen. unfold ZX.clearEphemerals.
  set (use := ZX.MemUsage m) in *. set (mem := ZX.Memory m) in *.
  destruct (for_loop_invariant
    (λ k m', (∃ cur, m' = ZX.with_mem m cur use ∧ length cur = length mem ∧
       ∀ j : nat, cur !! j =
         if decide (j < k)%nat then keep_used use mem !! j else mem !! j))
    (λ i m0,
       used ← elem (ZX.MemUsage m0) i;
       if negb used then
         mem ← assign (ZX.Memory m0) i 0;
         Done (ZX.with_mem m0 mem (ZX.MemUsage m0))
       else Done m0)
    (length mem) m) as (m' & -> & cur & -> & Hl & Hinv).
  - exists mem. split; [by destruct m|]. split; [done|].
    intros j. by rewrite decide_False by lia.
  - intros k m0 Hk (cur & -> & Hl & Hinv).
    cbn [ZX.with_mem ZX.Memory ZX.MemUsage].
    destruct (clear_loop_invariant use mem k cur)
      as (u & -> & cur' & Hstep & Hl' & Hinv'); [done..|].
    simpl. destruct u; simpl in *.
    + injection Hstep as <-. eauto 10.
    + rewrite Hstep. simpl. eexists. split; [done|]. exists cur'. eauto.
  - by rewrite (clear_loop_final use mem cur).
Qed.

(** ** Both models, through the interface *)

Import MemModel.

Lemma wf_usage_length (m : MemModel) :
  wf m → length (usage m) = length (getPtrToMem m).
Proof.
  destruct m as [p|z]; simpl.
  - intros H. by apply plain_wf_length.
  - by intros (_ & _ & _ & _ & H & _).
Qed.

Lemma location_in_range (m : MemModel) (a : Z) :
  wf m → is_u16 a →
  ∃ i, location m a = Done i ∧ 0 <= i < Z.of_nat (length (getPtrToMem m)).
Proof.
  destruct m as [p|z]; cbn [wf location getPtrToMem]; intros Hwf Ha.
  - exists a. split; [done|]. unfold Plain.getPtrToMem.
    apply plain_wf_length in Hwf as [-> _]. apply Ha.
  - destruct (zx_addrToOffset_spec z a) as (pg & _ & Hpg & ->); [done..|].
    eexists. split; [done|]. unfold ZX.getPtrToMem.
    destruct Hwf as (_ & _ & _ & -> & _). unfold ZX.PageSize. zlia.
Qed.

Lemma readByte_location (m : MemModel) (a : Z) :
  readByte m a = (i ← location m a; elem (getPtrToMem m) i).
Proof. by destruct m. Qed.

Lemma usedAddr_location (m : MemModel) (a : Z) :
  usedAddr m a = (i ← location m a; elem (usage m) i).
Proof. by destruct m. Qed.

Lemma writeByte_spec (m : MemModel) (a v i : Z) (e : bool) :
  wf m → location m a = Done i →
  0 <= i < Z.of_nat (length (getPtrToMem m)) →
  ∃ m', writeByte m a v e = Done m' ∧
        getPtrToMem m' = <[Z.to_nat i := v]> (getPtrToMem m) ∧
        usage m' = (if e then usage m else <[Z.to_nat i := true]> (usage m)) ∧
        (∀ b, location m' b = location m b) ∧
        wf m'.
Proof.
  intros Hwf Hloc Hi. pose proof (wf_usage_length m Hwf) as Hlen.
  destruct m as [p|z]; cbn [wf location getPtrToMem usage writeByte] in *.
  - injection Hloc as ->. unfold Plain.writeByte, Plain.getPtrToMem in *.
    rewrite (assign_in_range (Plain.Memory p)) by done. cbn [mbind outcome_bind].
    destruct e; cbn [negb].
    + eexists. split; [done|]. repeat split; try done.
      * cbn. rewrite length_insert. apply Hwf.
      * apply Hwf.
    + rewrite assign_in_range by lia. eexists. split; [done|].
      repeat split; try done; cbn; rewrite length_insert; apply Hwf.
  - unfold ZX.writeByte, ZX.getPtrToMem in *. rewrite Hloc.
    cbn [mbind outcome_bind]. rewrite (assign_in_range (ZX.Memory z)) by done.
    cbn [mbind outcome_bind].
    destruct Hwf as (H1 & H2 & H3 & H4 & H5 & H6).
    destruct e; cbn [negb].
    + eexists. split; [done|]. repeat split; try done; cbn;
        rewrite ?length_insert; done.
    + rewrite assign_in_range by lia. eexists. split; [done|].
      repeat split; try done; cbn; rewrite ?length_insert; done.
Qed.

Lemma clearEphemerals_spec (m : MemModel) :
  wf m →
  ∃ m', clearEphemerals m = Done m' ∧
        getPtrToMem m' = keep_used (usage m) (getPtrToMem m) ∧
        usage m' = usage m ∧
        (∀ b, location m' b = location m b) ∧
        wf m' ∧
        clearEphemerals m' = Done m'.
Proof.
  intros Hwf. pose proof (wf_usage_length m Hwf) as Hlen.
  destruct m as [p|z]; cbn [wf location getPtrToMem usage clearEphemerals] in *.
  - unfold Plain.getPtrToMem in *.
    rewrite plain_clearEphemerals_spec by done. eexists. split; [done|].
    assert (length (keep_used (Plain.MemUsage p) (Plain.Memory p))
            = length (Plain.Memory p)) as Hk by by apply keep_used_length.
    repeat split; try done.
    + cbn. rewrite Hk. apply Hwf.
    + apply Hwf.
    + cbn [clearEphemerals]. rewrite plain_clearEphemerals_spec by (cbn; lia).
      cbn. by rewrite keep_used_idemp.
  - unfold ZX.getPtrToMem in *.
    rewrite zx_clearEphemerals_spec by done. eexists. split; [done|].
    assert (length (keep_used (ZX.MemUsage z) (ZX.Memory z))
            = length (ZX.Memory z)) as Hk by by apply keep_used_length.
    destruct Hwf as (H1 & H2 & H3 & H4 & H5 & H6).
    repeat split; try done.
    + cbn. by rewrite Hk.
    + cbn. lia.
    + cbn [clearEphemerals]. rewrite zx_clearEphemerals_spec by (cbn; lia).
      cbn. by rewrite keep_used_idemp.
Qed.

Lemma clear_spec (m : MemModel) :
  wf m →
  getPtrToMem (clear m) = replicate (length (getPtrToMem m)) 0 ∧
  usage (clear m) = replicate (length (getPtrToMem m)) false ∧
  (∀ b, location (clear m) b = location m b) ∧
  wf (clear m).
Proof.
  intros Hwf. pose proof (wf_usage_length m Hwf) as Hlen.
  destruct m as [p|z]; cbn [wf location getPtrToMem usage clear] in *.
  - unfold Plain.getPtrToMem, Plain.clear in *. cbn. rewrite Hlen.
    repeat split; try done; cbn; rewrite length_replicate; apply Hwf.
  - unfold ZX.getPtrToMem, ZX.clear in *. cbn. rewrite Hlen.
    destruct Hwf as (H1 & H2 & H3 & H4 & H5 & H6).
    repeat split; try done; cbn; rewrite ?length_replicate; done.
Qed.

Lemma elem_keep_used (use : list bool) (mem : list Z) (i : Z) (u : bool) (b : Z) :
  0 <= i →
  use !! Z.to_nat i = Some u → mem !! Z.to_nat i = Some b →
  elem (keep_used use mem) i = Done (if u then b else 0).
Proof.
  intros Hi Hu Hb. apply elem_lookup; [done|].
  by rewrite keep_used_lookup, Hu, Hb.
Qed.

Lemma read_at (m : MemModel) (a i : Z) :
  location m a = Done i → readByte m a = elem (getPtrToMem m) i.
Proof. intros H. by rewrite readByte_location, H. Qed.

Lemma used_at (m : MemModel) (a i : Z) :
  location m a = Done i → usedAddr m a = elem (usage m) i.
Proof. intros H. by rewrite usedAddr_location, H. Qed.

(** A write is read back, marks the byte unless ephemeral, and keeps the
    model well formed. *)
Lemma writeByte_read (m : MemModel) (a v : Z) (e : bool) :
  wf m → is_u16 a →
  ∃ m', writeByte m a v e = Done m' ∧ wf m' ∧
        readByte m' a = Done v ∧
        usedAddr m' a = (if e then usedAddr m a else Done true) ∧
        (e = true → usage m' = usage m).
Proof.
  intros Hwf Ha. pose proof (wf_usage_length m Hwf) as Hlen.
  destruct (location_in_range m a) as (i & Hloc & Hi); [done..|].
  destruct (writeByte_spec m a v i e) as (m' & Hw & Hmem & Huse & Hsame & Hwf');
    [done..|].
  exists m'. split; [done|]. split; [done|].
  rewrite (read_at m' a i), (used_at m' a i), (used_at m a i)
    by (by rewrite ?Hsame).
  rewrite Hmem, Huse. split; [by apply elem_insert_eq|].
  destruct e; [done|]. split; [|done]. apply elem_insert_eq. lia.
Qed.

(** What a read returns after [clearEphemerals]: the byte if it is marked
    used, zero otherwise; the marker is as before. *)
Lemma clearEphemerals_read (m : MemModel) (a : Z) :
  wf m → is_u16 a →
  ∃ m' (u : bool) (b : Z),
    clearEphemerals m = Done m' ∧ wf m' ∧
    usedAddr m a = Done u ∧ readByte m a = Done b ∧
    readByte m' a = Done (if u then b else 0) ∧
    usedAddr m' a = Done u ∧
    clearEphemerals m' = Done m'.
Proof.
  intros Hwf Ha. pose proof (wf_usage_length m Hwf) as Hlen.
  destruct (location_in_range m a) as (i & Hloc & Hi); [done..|].
  destruct (clearEphemerals_spec m) as (m' & Hc & Hmem & Huse & Hsame & Hwf' & Hid);
    [done|].
  destruct (elem_in_range (usage m) i) as (u & Hu & Hu'); [lia|].
  destruct (elem_in_range (getPtrToMem m) i) as (b & Hb & Hb'); [lia|].
  exists m', u, b.
  rewrite (read_at m' a i), (used_at m' a i), (used_at m a i), (read_at m a i)
    by (by rewrite ?Hsame).
  rewrite Hmem, Huse. repeat split; try done.
  apply elem_keep_used; [lia|done..].
Qed.

(** C1: an ephemeral write [writeByte(a, v1, true)] is read back as [v1] and
    leaves every used-marker as it was; a following [clearEphemerals()] makes
    [readByte(a)] zero when the byte is not marked used, and leaves [v1] when
    an earlier committed write marked it; when a committed write to [a]
    follows the ephemeral one, [clearEphemerals()] leaves the committed
    value.  On the flat and on the banked model. *)
Theorem ephemeral_write_roundtrip (m : MemModel) (a v1 : Z) :
  wf m → is_u16 a →
  ∃ m1, writeByte m a v1 true = Done m1 ∧
    readByte m1 a = Done v1 ∧
    usage m1 = usage m ∧
    usedAddr m1 a = usedAddr m a ∧
    (∃ m2 (used : bool),
       clearEphemerals m1 = Done m2 ∧ usedAddr m a = Done used ∧
       readByte m2 a = Done (if used then v1 else 0)) ∧
    (∀ v0, ∃ m0 m1' m2',
       writeByte m a v0 false = Done m0 ∧ writeByte m0 a v1 true = Done m1' ∧
       clearEphemerals m1' = Done m2' ∧ readByte m2' a = Done v1) ∧
    (∀ v2, ∃ m3 m4,
       writeByte m1 a v2 false = Done m3 ∧ clearEphemerals m3 = Done m4 ∧
       readByte m4 a = Done v2).
Proof.
  intros Hwf Ha.
  destruct (writeByte_read m a v1 true) as (m1 & Hw1 & Hwf1 & Hr1 & Hu1 & Hus1);
    [done..|].
  exists m1. split; [done|]. split; [done|]. split; [by apply Hus1|].
  split; [done|]. split; [|split].
  - destruct (clearEphemerals_read m1 a) as (m2 & u & b & Hc & _ & Hu & Hb & Hr & _);
      [done..|].
    exists m2, u. rewrite <- Hu1. rewrite Hr1 in Hb. injection Hb as <-. done.
  - intros v0.
    destruct (writeByte_read m a v0 false) as (m0 & Hw0 & Hwf0 & _ & Hu0 & _);
      [done..|].
    destruct (writeByte_read m0 a v1 true) as (m1' & Hw1' & Hwf1' & Hr1' & Hu1' & _);
      [done..|].
    destruct (clearEphemerals_read m1' a) as (m2 & u & b & Hc & _ & Hu & Hb & Hr & _);
      [done..|].
    exists m0, m1', m2. rewrite Hr1' in Hb. injection Hb as <-.
    rewrite Hu1', Hu0 in Hu. injection Hu as <-. done.
  - intros v2.
    destruct (writeByte_read m1 a v2 false) as (m3 & Hw3 & Hwf3 & Hr3 & Hu3 & _);
      [done..|].
    destruct (clearEphemerals_read m3 a) as (m4 & u & b & Hc & _ & Hu & Hb & Hr & _);
      [done..|].
    exists m3, m4. rewrite Hr3 in Hb. injection Hb as <-.
    rewrite Hu3 in Hu. injection Hu as <-. done.
Qed.

Lemma ephemeral_write_roundtrip_witness :
  wf zx128_model ∧ is_u16 0x8000 ∧
  ∃ m1 m2, writeByte zx128_model 0x8000 0x42 true = Done m1 ∧
           readByte m1 0x8000 = Done 0x42 ∧
           clearEphemerals m1 = Done m2.
Proof.
  assert (wf zx128_model) as Hwf by (apply zx_wf_new; lia).
  assert (is_u16 0x8000) as Ha by (unfold is_u16; lia).
  split; [exact Hwf|]. split; [exact Ha|].
  destruct (ephemeral_write_roundtrip zx128_model 0x8000 0x42 Hwf Ha)
    as (m1 & Hw & Hr & _ & _ & (m2 & _ & Hc & _) & _).
  exists m1, m2. exact (conj Hw (conj Hr Hc)).
Defined.

Lemma clearEphemerals_times_keeps (m : MemModel) (a v : Z) (n : nat) :
  wf m → is_u16 a → usedAddr m a = Done true → readByte m a = Done v →
  ∃ m', clearEphemerals_times n m = Done m' ∧ wf m' ∧
        usedAddr m' a = Done true ∧ readByte m' a = Done v.
Proof.
  intros Hwf Ha. revert m Hwf. induction n as [|n IH]; intros m Hwf Hu Hr.
  - by exists m.
  - destruct (clearEphemerals_read m a) as (m1 & u & b & Hc & Hwf1 & Hu' & Hb & Hr1 & Hu1 & _);
      [done..|].
    rewrite Hu in Hu'. injection Hu' as <-. rewrite Hr in Hb. injection Hb as <-.
    cbn [clearEphemerals_times]. rewrite Hc. by apply IH.
Qed.

(** C2: [clearEphemerals()] is idempotent: a second call returns the state
    of the first.  It changes no used-marker and no byte whose used-marker
    is true.  So after a committed write [writeByte(a, v, false)], any number
    [n] of [clearEphemerals()] calls leaves [readByte(a) == v]. *)
Theorem clearEphemerals_idempotent_keeps_used (m : MemModel) :
  wf m →
  ∃ m1, clearEphemerals m = Done m1 ∧
    clearEphemerals m1 = Done m1 ∧
    usage m1 = usage m ∧
    (∀ i : nat, usage m !! i = Some true →
                getPtrToMem m1 !! i = getPtrToMem m !! i) ∧
    (∀ a, is_u16 a → usedAddr m a = Done true → readByte m1 a = readByte m a) ∧
    (∀ a v (n : nat), is_u16 a →
       ∃ m2 m3, writeByte m a v false = Done m2 ∧
                clearEphemerals_times n m2 = Done m3 ∧
                readByte m3 a = Done v).
Proof.
  intros Hwf. pose proof (wf_usage_length m Hwf) as Hlen.
  destruct (clearEphemerals_spec m) as (m1 & Hc & Hmem & Huse & Hsame & Hwf1 & Hid);
    [done|].
  exists m1. repeat split; try done.
  - intros i Hi. rewrite Hmem, keep_used_lookup, Hi.
    by destruct (getPtrToMem m !! i).
  - intros a Ha Hu.
    destruct (clearEphemerals_read m a) as (m1' & u & b & Hc' & _ & Hu' & Hb & Hr & _);
      [done..|].
    rewrite Hc in Hc'. injection Hc' as <-.
    rewrite Hu in Hu'. injection Hu' as <-. by rewrite Hr, Hb.
  - intros a v n Ha.
    destruct (writeByte_read m a v false) as (m2 & Hw & Hwf2 & Hr2 & Hu2 & _);
      [done..|].
    destruct (clearEphemerals_times_keeps m2 a v n) as (m3 & Hc3 & _ & _ & Hr3);
      [done..|].
    by exists m2, m3.
Qed.

Lemma clearEphemerals_idempotent_keeps_used_witness :
  wf plain_model ∧
  ∃ m1, clearEphemerals plain_model = Done m1 ∧ clearEphemerals m1 = Done m1.
Proof.
  assert (wf plain_model) as Hwf by apply plain_wf_new.
  split; [exact Hwf|].
  destruct (clearEphemerals_idempotent_keeps_used plain_model Hwf)
    as (m1 & Hc & Hid & _).
  exists m1. exact (conj Hc Hid).
Defined.

(** C3: on a freshly cleared model, [readByte(a)] is 0 and [usedAddr(a)] is
    false for every address; after a committed write [writeByte(a, v, false)],
    on the cleared model as on any other, [readByte(a) == v] and
    [usedAddr(a)] is true. *)
Theorem clear_then_committed_write (m : MemModel) (a v : Z) :
  wf m → is_u16 a →
  readByte (clear m) a = Done 0 ∧
  usedAddr (clear m) a = Done false ∧
  (∃ m1, writeByte (clear m) a v false = Done m1 ∧
         readByte m1 a = Done v ∧ usedAddr m1 a = Done true) ∧
  (∃ m2, writeByte m a v false = Done m2 ∧
         readByte m2 a = Done v ∧ usedAddr m2 a = Done true).
Proof.
  intros Hwf Ha.
  destruct (clear_spec m) as (Hmem & Huse & Hsame & Hwfc); [done|].
  destruct (location_in_range m a) as (i & Hloc & Hi); [done..|].
  rewrite (read_at (clear m) a i), (used_at (clear m) a i) by (by rewrite Hsame).
  rewrite Hmem, Huse. repeat split.
  - apply elem_lookup; [lia|]. apply lookup_replicate_2. lia.
  - apply elem_lookup; [lia|]. apply lookup_replicate_2. lia.
  - destruct (writeByte_read (clear m) a v false) as (m1 & Hw & _ & Hr & Hu & _);
      [done..|].
    by exists m1.
  - destruct (writeByte_read m a v false) as (m2 & Hw & _ & Hr & Hu & _);
      [done..|].
    by exists m2.
Qed.

Lemma clear_then_committed_write_witness :
  wf zx128_model ∧ is_u16 0xC000 ∧
  readByte (clear zx128_model) 0xC000 = Done 0 ∧
  usedAddr (clear zx128_model) 0xC000 = Done false ∧
  ∃ m1, writeByte (clear zx128_model) 0xC000 0xAA false = Done m1 ∧
        readByte m1 0xC000 = Done 0xAA ∧ usedAddr m1 0xC000 = Done true.
Proof.
  assert (wf zx128_model) as Hwf by (apply zx_wf_new; lia).
  assert (is_u16 0xC000) as Ha by (unfold is_u16; lia).
  split; [exact Hwf|]. split; [exact Ha|].
  destruct (clear_then_committed_write zx128_model 0xC000 0xAA Hwf Ha)
    as (H1 & H2 & H3 & _).
  exact (conj H1 (conj H2 H3)).
Defined.

(** C4: on the banked model the offset of a 16-bit address [addr] is
    [SlotPages[addr / 0x4000] * 0x4000 + addr % 0x4000]; a model as
    constructed maps slot 0 to page 0, slot 1 to page 5, slot 2 to page 2 and
    slot 3 to page 7, so [getPageForAddress] is 0, 5, 2 and 7 at [0x0000],
    [0x4000], [0x8000] and [0xC000]; [getDefaultSlot()] is 3. *)
Theorem zx_translation_and_default_mapping :
  (∀ (m : ZX.ZXMemModel) (addr : Z), ZX.wf m → is_u16 addr →
     ∃ p, ZX.getPageNumInSlot m (addr / 0x4000) = Done p ∧
          ZX.addrToOffset m addr = Done (p * 0x4000 + addr mod 0x4000)) ∧
  (∀ NPages : Z,
     ZX.getPageNumInSlot (ZX.new NPages) 0 = Done 0 ∧
     ZX.getPageNumInSlot (ZX.new NPages) 1 = Done 5 ∧
     ZX.getPageNumInSlot (ZX.new NPages) 2 = Done 2 ∧
     ZX.getPageNumInSlot (ZX.new NPages) 3 = Done 7 ∧
     ZX.getPageForAddress (ZX.new NPages) 0x0000 = Done 0 ∧
     ZX.getPageForAddress (ZX.new NPages) 0x4000 = Done 5 ∧
     ZX.getPageForAddress (ZX.new NPages) 0x8000 = Done 2 ∧
     ZX.getPageForAddress (ZX.new NPages) 0xC000 = Done 7) ∧
  (∀ m : ZX.ZXMemModel, ZX.getDefaultSlot m = 3).
Proof.
  split; [|split].
  - intros m addr Hwf Ha.
    destruct (zx_addrToOffset_spec m addr Hwf Ha) as (p & Hp & _ & Hoff).
    exists p. split; [|done]. unfold ZX.getPageNumInSlot.
    apply elem_lookup; [|done]. unfold is_u16 in Ha. zlia.
  - intros NPages. by repeat split.
  - done.
Qed.

Lemma zx_translation_and_default_mapping_witness :
  ZX.wf (ZX.new 8) ∧ is_u16 0x4005 ∧
  ∃ p, ZX.getPageNumInSlot (ZX.new 8) (0x4005 / 0x4000) = Done p ∧
       ZX.addrToOffset (ZX.new 8) 0x4005 = Done (p * 0x4000 + 0x4005 mod 0x4000).
Proof.
  assert (ZX.wf (ZX.new 8)) as Hwf by (apply zx_wf_new; lia).
  assert (is_u16 0x4005) as Ha by (unfold is_u16; lia).
  split; [exact Hwf|]. split; [exact Ha|].
  exact (proj1 zx_translation_and_default_mapping (ZX.new 8) 0x4005 Hwf Ha).
Defined.

(** C7: on the flat model both forms of [setPage] return, for all arguments,
    the error "The PLAIN memory model does not support page switching" and
    leave the memory and the used-markers as they are; [isPagedMemory()] is
    false and [getNumMemPages()] is 0. *)
Theorem plain_setPage_unsupported (m : Plain.PlainMemModel) (Slot Page Addr : Z) :
  Plain.setPage m Slot Page =
    (Some "The PLAIN memory model does not support page switching"%string, m) ∧
  Plain.setPage_addr m Addr Page =
    (Some "The PLAIN memory model does not support page switching"%string, m) ∧
  Plain.isPagedMemory m = false ∧
  Plain.getNumMemPages m = 0 ∧
  MemModel.isPagedMemory (PlainModel m) = false ∧
  MemModel.getNumMemPages (PlainModel m) = 0.
Proof. by repeat split. Qed.

(** C8: [validateSlot(slot)] returns an error message exactly when [slot] is
    outside [0, NumSlots) and none for every slot inside, on every model.  The
    flat model has no slot, so there every slot is out of range and is
    answered with the error of [setPage]. *)
Theorem validateSlot_exactly_out_of_range
    (slot_error : Z → string) (m : MemModel) (slot : Z) :
  (is_Some (validateSlot slot_error m slot) ↔ ¬ (0 <= slot < NumSlots m)) ∧
  (validateSlot slot_error m slot = None ↔ 0 <= slot < NumSlots m) ∧
  (∀ p : Plain.PlainMemModel, m = PlainModel p →
     Plain.validateSlot p slot = Plain.setPage p 0 0 ∧
     validateSlot slot_error m slot =
       Some "The PLAIN memory model does not support page switching"%string).
Proof.
  destruct m as [p|z]; cbn [validateSlot NumSlots].
  - split; [|split].
    + split; [lia|]. intros _. by eexists.
    + split; [done|lia].
    + by intros p' [= <-].
  - unfold ZX.validateSlot. split; [|split; [|done]].
    + case_decide; split; done.
    + case_decide; split; done.
Qed.

Lemma validateSlot_exactly_out_of_range_witness :
  validateSlot pretty zx128_model 3 = None ∧
  is_Some (validateSlot pretty zx128_model 4) ∧
  is_Some (validateSlot pretty zx128_model (-1)) ∧
  is_Some (validateSlot pretty plain_model 0).
Proof.
  assert (0 <= 3 < NumSlots zx128_model) as H3
    by (cbn [NumSlots zx128_model ZX.new ZX.NumSlots]; lia).
  assert (¬ (0 <= 4 < NumSlots zx128_model)) as H4
    by (cbn [NumSlots zx128_model ZX.new ZX.NumSlots]; lia).
  assert (¬ (0 <= -1 < NumSlots zx128_model)) as Hm by lia.
  assert (¬ (0 <= 0 < NumSlots plain_model)) as H0
    by (cbn [NumSlots plain_model]; lia).
  split; [|split; [|split]].
  - exact (proj2 (proj1 (proj2
             (validateSlot_exactly_out_of_range pretty zx128_model 3))) H3).
  - exact (proj2 (proj1
             (validateSlot_exactly_out_of_range pretty zx128_model 4)) H4).
  - exact (proj2 (proj1
             (validateSlot_exactly_out_of_range pretty zx128_model (-1))) Hm).
  - exact (proj2 (proj1
             (validateSlot_exactly_out_of_range pretty plain_model 0)) H0).
Defined.

(** ** Words *)

Lemma word_bytes (w : Z) :
  is_u16 w →
  u8 (Z.land w 0xff) = w mod 0x100 ∧ u8 (Z.shiftr w 8) = w / 0x100.
Proof.
  unfold is_u16, u8. intros Hw.
  change 0xff with (Z.ones 8). rewrite Z.land_ones by lia.
  rewrite Z.shiftr_div_pow2 by lia.
  change (2 ^ 8) with 0x100. split; zlia.
Qed.

Lemma location_succ_ne (m : MemModel) (a i i' : Z) :
  wf m → is_u16 a →
  location m a = Done i → location m (u16 (a + 1)) = Done i' → i ≠ i'.
Proof.
  unfold is_u16, u16. intros Hwf Ha.
  destruct m as [p|z]; cbn [location wf] in *.
  - intros [= <-] [= <-]. zlia.
  - destruct (zx_addrToOffset_spec z a) as (p & _ & _ & ->); [done..|].
    destruct (zx_addrToOffset_spec z ((a + 1) mod 0x10000)) as (p' & _ & _ & ->);
      [done|unfold is_u16; zlia|].
    intros [= <-] [= <-]. zlia.
Qed.

(** C6: [writeWord(a, w, e)] is two [writeByte] calls with the flag [e], the
    low byte of [w] at [a] first, then the high byte at [(a + 1) mod 0x10000];
    afterwards both bytes are read back.  At the top of the address space:
    [writeWord(0xFFFF, 0x1234, false)] leaves [0x34] at [0xFFFF] and [0x12]
    at [0x0000]. *)
Theorem writeWord_two_writes (m : MemModel) :
  wf m →
  (∀ (a w : Z) (e : bool), is_u16 a → is_u16 w →
     ∃ m1 m2,
       writeByte m a (w mod 0x100) e = Done m1 ∧
       writeByte m1 ((a + 1) mod 0x10000) (w / 0x100) e = Done m2 ∧
       writeWord m a w e = Done m2 ∧
       readByte m2 a = Done (w mod 0x100) ∧
       readByte m2 ((a + 1) mod 0x10000) = Done (w / 0x100)) ∧
  (∃ m2, writeWord m 0xFFFF 0x1234 false = Done m2 ∧
         readByte m2 0xFFFF = Done 0x34 ∧ readByte m2 0x0000 = Done 0x12).
Proof.
  intros Hwf.
  assert (∀ (a w : Z) (e : bool), is_u16 a → is_u16 w →
     ∃ m1 m2,
       writeByte m a (w mod 0x100) e = Done m1 ∧
       writeByte m1 ((a + 1) mod 0x10000) (w / 0x100) e = Done m2 ∧
       writeWord m a w e = Done m2 ∧
       readByte m2 a = Done (w mod 0x100) ∧
       readByte m2 ((a + 1) mod 0x10000) = Done (w / 0x100)) as Hgen.
  { intros a w e Ha Hw.
    assert (is_u16 ((a + 1) mod 0x10000)) as Ha' by (unfold is_u16; zlia).
    destruct (location_in_range m a) as (i & Hloc & Hi); [done..|].
    destruct (writeByte_spec m a (w mod 0x100) i e)
      as (m1 & Hw1 & Hmem1 & _ & Hsame1 & Hwf1); [done..|].
    destruct (location_in_range m1 ((a + 1) mod 0x10000)) as (i' & Hloc' & Hi');
      [done..|].
    destruct (writeByte_spec m1 ((a + 1) mod 0x10000) (w / 0x100) i' e)
      as (m2 & Hw2 & Hmem2 & _ & Hsame2 & Hwf2); [done..|].
    assert (i ≠ i') as Hne.
    { apply (location_succ_ne m a); [done..|]. by rewrite <- Hsame1. }
    exists m1, m2. split; [done|]. split; [done|]. split; [|split].
    - unfold writeWord. destruct (word_bytes w Hw) as [-> ->].
      rewrite Hw1. cbn [mbind outcome_bind]. unfold u16. by rewrite Hw2.
    - rewrite (read_at m2 a i) by (by rewrite Hsame2, Hsame1).
      rewrite Hmem2, elem_insert_ne by lia. rewrite Hmem1.
      apply elem_insert_eq. done.
    - rewrite (read_at m2 _ i') by (by rewrite Hsame2).
      rewrite Hmem2. by apply elem_insert_eq. }
  split; [done|].
  destruct (Hgen 0xFFFF 0x1234 false) as (m1 & m2 & _ & _ & Hww & Hlo & Hhi);
    [unfold is_u16; lia..|].
  exists m2. split; [done|]. split; [exact Hlo|exact Hhi].
Qed.

Lemma writeWord_two_writes_witness :
  wf plain_model ∧
  ∃ m2, writeWord plain_model 0xFFFF 0x1234 false = Done m2 ∧
        readByte m2 0xFFFF = Done 0x34 ∧ readByte m2 0x0000 = Done 0x12.
Proof.
  assert (wf plain_model) as Hwf by apply plain_wf_new.
  split; [exact Hwf|].
  exact (proj2 (writeWord_two_writes plain_model Hwf)).
Defined.

(** ** Loops that stop early, loops that collect *)

Lemma for_loop_app {St} (n1 n2 : nat) (i : Z) body (s : St) :
  for_loop (n1 + n2) i body s =
    (s' ← for_loop n1 i body s; for_loop n2 (i + Z.of_nat n1) body s').
Proof.
  revert i s. induction n1 as [|n1 IH]; intros i s; simpl.
  - by rewrite Z.add_0_r.
  - destruct (body i s) as [s1| |]; simpl; [|done..].
    rewrite IH. by replace (i + 1 + Z.of_nat n1) with (i + Z.pos (Pos.of_succ_nat n1)) by lia.
Qed.

(** The body fails at step [j], after [j] steps that keep the invariant. *)
Lemma for_loop_stops {St} (I : nat → St → Prop) body (n j : nat) (s : St)
    (bad : outcome St) :
  (j < n)%nat → (∀ s', bad ≠ Done s') →
  I 0%nat s →
  (∀ (k : nat) s, (k < j)%nat → I k s →
     ∃ s', body (Z.of_nat k) s = Done s' ∧ I (S k) s') →
  (∀ s, I j s → body (Z.of_nat j) s = bad) →
  for_loop n 0 body s = bad.
Proof.
  intros Hj Hbad H0 Hstep Hfail.
  replace n with (j + S (n - j - 1))%nat by lia. rewrite for_loop_app.
  destruct (for_loop_invariant I body j s) as (s' & -> & Hs'); [done..|].
  cbn [mbind outcome_bind for_loop]. rewrite Z.add_0_l, (Hfail s' Hs').
  destruct bad; [by destruct (Hbad a)|done..].
Qed.

Lemma bounded_search (P : nat → Prop) `{∀ k, Decision (P k)} (n : nat) :
  (∀ k, (k < n)%nat → ¬ P k) ∨
  (∃ j, (j < n)%nat ∧ P j ∧ ∀ i, (i < j)%nat → ¬ P i).
Proof.
  induction n as [|n [IH|(j & Hj & HP & Hleast)]].
  - left. lia.
  - destruct (decide (P n)) as [HP|HP].
    + right. exists n. split; [lia|]. split; [done|]. intros i Hi. apply IH. lia.
    + left. intros k Hk. destruct (decide (k = n)) as [->|]; [done|]. apply IH. lia.
  - right. exists j. split; [lia|]. done.
Qed.

Lemma collect_loop (f : Z → outcome Z) (n : nat) :
  (∀ k : nat, (k < n)%nat → ∃ b, f (Z.of_nat k) = Done b) →
  ∃ dest, for_loop n 0 (λ i Dest, b ← f i; Done (Dest ++ [b])) [] = Done dest ∧
          length dest = n ∧
          ∀ i, 0 <= i < Z.of_nat n → elem dest i = f i.
Proof.
  intros Hf.
  destruct (for_loop_invariant
    (λ k dest, length dest = k ∧
       ∀ i : nat, (i < k)%nat → elem dest (Z.of_nat i) = f (Z.of_nat i))
    (λ i Dest, b ← f i; Done (Dest ++ [b])) n []) as (dest & Hd & Hlen & Hget).
  - split; [done|]. lia.
  - intros k dest Hk [Hlen Hget]. destruct (Hf k Hk) as [b Hb].
    rewrite Hb. cbn. eexists. split; [done|]. split.
    { rewrite length_app. simpl. lia. }
    intros i Hi. destruct (decide (i = k)) as [->|Hne].
    + rewrite Hb. apply elem_lookup; [lia|]. rewrite Nat2Z.id.
      rewrite lookup_app_r by lia. by rewrite Hlen, Nat.sub_diag.
    + rewrite <- Hget by lia. unfold elem. rewrite lookup_app_l by lia. done.
  - exists dest. split; [done|]. split; [done|]. intros i Hi.
    specialize (Hget (Z.to_nat i)). rewrite Z2Nat.id in Hget by lia.
    apply Hget. lia.
Qed.

Lemma readByte_total (m : MemModel) (a : Z) :
  wf m → is_u16 a → ∃ b, readByte m a = Done b.
Proof.
  intros Hwf Ha. destruct (location_in_range m a) as (i & Hloc & Hi); [done..|].
  destruct (elem_in_range (getPtrToMem m) i) as (b & Hb & _); [done|].
  exists b. by rewrite (read_at m a i).
Qed.

(** ** Bulk reads *)

(** The banked model reads across the top of the address space. *)
Lemma zx_getBytes_wraps (m : ZX.ZXMemModel) (a n : Z) :
  ZX.wf m → is_u16 a → is_u16 n →
  ∃ dest, ZX.getBytes m a n = Done dest ∧
          Z.of_nat (length dest) = n ∧
          ∀ i, 0 <= i < n → elem dest i = ZX.readByte m ((a + i) mod 0x10000).
Proof.
  intros Hwf Ha Hn. unfold is_u16 in *.
  destruct (collect_loop (λ i, ZX.readByte m (u16 (a + i))) (Z.to_nat n))
    as (dest & Hd & Hlen & Hget).
  - intros k Hk. apply (readByte_total (ZXModel m)); [done|].
    unfold is_u16, u16. zlia.
  - exists dest. split; [done|]. split; [lia|]. intros i Hi. apply Hget. lia.
Qed.

(** The flat model reads a range that ends at or below [0x10000]. *)
Lemma plain_getBytes_in_range (m : Plain.PlainMemModel) (a n : Z) :
  Plain.wf m → is_u16 a → 0 <= n → a + n <= 0x10000 →
  ∃ dest, Plain.getBytes m a n = Done dest ∧
          Z.of_nat (length dest) = n ∧
          ∀ i, 0 <= i < n → elem dest i = Plain.readByte m (a + i).
Proof.
  intros Hwf Ha Hn Hend. unfold is_u16 in *.
  destruct (collect_loop (λ i, elem (Plain.Memory m) (a + i)) (Z.to_nat n))
    as (dest & Hd & Hlen & Hget).
  - intros k Hk. apply plain_wf_length in Hwf as [Hmem _].
    destruct (elem_in_range (Plain.Memory m) (a + Z.of_nat k)) as (b & Hb & _);
      [lia|by exists b].
  - exists dest. split; [done|]. split; [lia|]. intros i Hi. apply Hget. lia.
Qed.

(** C5, what the flat model does: [getBytes(dest, a, n)] with [a + n] above
    [0x10000] indexes [Memory] at [0x10000], past its last element, where the
    claim has it read [readByte(0)]: [Memory[Addr + i]] is indexed with the
    [int] sum, which does not wrap. *)
Theorem plain_getBytes_past_end (m : Plain.PlainMemModel) (a n : Z) :
  Plain.wf m → is_u16 a → is_u16 n → 0x10000 < a + n →
  Plain.getBytes m a n = Undefined.
Proof.
  intros Hwf Ha Hn Hend. unfold is_u16 in *.
  apply plain_wf_length in Hwf as [Hmem _].
  apply (for_loop_stops (λ _ _, True) _ _ (Z.to_nat (0x10000 - a))).
  - lia.
  - done.
  - done.
  - intros k dest Hk _.
    destruct (elem_in_range (Plain.Memory m) (a + Z.of_nat k)) as (b & -> & _);
      [lia|]. cbn. eauto.
  - intros dest _. rewrite elem_out_of_range; [done|]. lia.
Qed.

Lemma plain_getBytes_past_end_witness :
  Plain.wf Plain.new ∧ is_u16 0xFFFF ∧ is_u16 2 ∧ 0x10000 < 0xFFFF + 2 ∧
  Plain.getBytes Plain.new 0xFFFF 2 = Undefined.
Proof.
  assert (is_u16 0xFFFF) as Ha by (unfold is_u16; lia).
  assert (is_u16 2) as Hn by (unfold is_u16; lia).
  assert (0x10000 < 0xFFFF + 2) as Hend by lia.
  split; [exact plain_wf_new|]. split; [exact Ha|]. split; [exact Hn|].
  split; [exact Hend|].
  exact (plain_getBytes_past_end Plain.new 0xFFFF 2 plain_wf_new Ha Hn Hend).
Defined.

(** ** Writes to a named page *)

Lemma zx_wf_with_mem (m : ZX.ZXMemModel) (mem : list Z) (use : list bool) :
  ZX.wf m → length mem = length (ZX.Memory m) → length use = length mem →
  ZX.wf (ZX.with_mem m mem use).
Proof.
  intros (H1 & H2 & H3 & H4 & H5 & H6) Hmem Huse.
  unfold ZX.wf. cbn. rewrite Hmem, Huse, Hmem. done.
Qed.

Lemma zx_writeByteToPage_done (m : ZX.ZXMemModel) (Page Offset Byte : Z) :
  ZX.wf m → 0 <= Page < ZX.NumPages m → 0 <= Offset < 0x4000 →
  ZX.writeByteToPage m Page Offset Byte =
    Done (ZX.with_mem m
            (<[Z.to_nat (Page * 0x4000 + Offset) := Byte]> (ZX.Memory m))
            (<[Z.to_nat (Page * 0x4000 + Offset) := true]> (ZX.MemUsage m))).
Proof.
  intros (_ & _ & _ & Hmem & Huse & Hmax) HPage HOffset.
  unfold ZX.writeByteToPage, ZX.PageSize in *.
  rewrite decide_False by lia. unfold size_t.
  rewrite (Z.mod_small Page) by lia.
  rewrite (Z.mod_small (_ * Page)) by lia.
  rewrite (Z.mod_small (_ * Page + _)) by lia.
  replace (0x4000 * Page + Offset) with (Page * 0x4000 + Offset) by lia.
  rewrite (assign_in_range (ZX.Memory m)) by lia. cbn [mbind outcome_bind].
  by rewrite (assign_in_range (ZX.MemUsage m)) by lia.
Qed.

Lemma zx_writeByteToPage_fatal (m : ZX.ZXMemModel) (Page Offset Byte : Z) :
  Offset >= 0x4000 →
  ZX.writeByteToPage m Page Offset Byte = Fatal (ZX.offset_msg Offset).
Proof. intros H. unfold ZX.writeByteToPage, ZX.PageSize. by rewrite decide_True. Qed.

Section page_loop.
Context (m : ZX.ZXMemModel) (Page Offset : Z) (val : Z → outcome Z).
Hypothesis Hwf : ZX.wf m.
Hypothesis HPage : 0 <= Page < ZX.NumPages m.

Lemma page_loop_step (n k : nat) (m' : ZX.ZXMemModel) :
  Z.of_nat n <= 0x10000 → (k < n)%nat →
  (∀ i : nat, (i < n)%nat → ∃ b, val (Z.of_nat i) = Done b) →
  u16 (Offset + Z.of_nat k) < 0x4000 →
  page_loop_inv m Page Offset val k m' →
  ∃ m'', page_loop_body Page Offset val (Z.of_nat k) m' = Done m'' ∧
         page_loop_inv m Page Offset val (S k) m''.
Proof.
  intros Hn Hk Hval Hok (Hwf' & HNP & Hdone). unfold page_loop_body.
  destruct (Hval k Hk) as [b Hb]. rewrite Hb. cbn [mbind outcome_bind].
  assert (0 <= u16 (Offset + Z.of_nat k)) as Hlo by (unfold u16; zlia).
  rewrite zx_writeByteToPage_done; [|done|lia|lia].
  eexists. split; [done|].
  pose proof Hwf' as (_ & _ & _ & Hmem & Huse & _). unfold ZX.PageSize in Hmem.
  split; [|split; [done|]].
  { apply zx_wf_with_mem;
      [done|by rewrite length_insert|by rewrite !length_insert]. }
  set (loc := λ i : nat, Page * 0x4000 + u16 (Offset + Z.of_nat i)).
  assert (0 <= loc k < Z.of_nat (length (ZX.Memory m'))) as Hlk by (unfold loc; lia).
  intros i Hi. cbn [ZX.with_mem ZX.Memory ZX.MemUsage].
  destruct (decide (i = k)) as [->|Hne].
  - exists b. split; [done|]. split; apply elem_insert_eq; fold (loc k); lia.
  - destruct (Hdone i) as (bi & Hbi & Hm & Hu); [lia|].
    exists bi. split; [done|].
    assert (loc k ≠ loc i) as Hloc by (unfold loc, u16; zlia).
    fold (loc k) (loc i) in *.
    rewrite !elem_insert_ne by (done || unfold loc, u16; zlia). done.
Qed.

Lemma page_loop_done (n : nat) :
  Z.of_nat n <= 0x10000 →
  (∀ i : nat, (i < n)%nat → ∃ b, val (Z.of_nat i) = Done b) →
  (∀ i : nat, (i < n)%nat → u16 (Offset + Z.of_nat i) < 0x4000) →
  ∃ m', for_loop n 0 (page_loop_body Page Offset val) m = Done m' ∧
        page_loop_inv m Page Offset val n m'.
Proof.
  intros Hn Hval Hok. apply for_loop_invariant.
  - split; [done|]. split; [done|]. lia.
  - intros k m' Hk Hinv. apply (page_loop_step n); auto.
Qed.

Lemma page_loop_fatal (n j : nat) :
  Z.of_nat n <= 0x10000 → (j < n)%nat →
  (∀ i : nat, (i < n)%nat → ∃ b, val (Z.of_nat i) = Done b) →
  (∀ i : nat, (i < j)%nat → u16 (Offset + Z.of_nat i) < 0x4000) →
  u16 (Offset + Z.of_nat j) >= 0x4000 →
  for_loop n 0 (page_loop_body Page Offset val) m =
    Fatal (ZX.offset_msg (u16 (Offset + Z.of_nat j))).
Proof.
  intros Hn Hj Hval Hok Hbad.
  apply (for_loop_stops (page_loop_inv m Page Offset val) _ _ j).
  - done.
  - done.
  - split; [done|]. split; [done|]. lia.
  - intros k m' Hk Hinv. apply (page_loop_step n); auto. lia.
  - intros m' _. unfold page_loop_body. destruct (Hval j Hj) as [b ->].
    cbn [mbind outcome_bind]. by apply zx_writeByteToPage_fatal.
Qed.

End page_loop.

Lemma page_loop_outcome (m : ZX.ZXMemModel) (Page Offset Size : Z)
    (val : Z → outcome Z) :
  ZX.wf m → 0 <= Page < ZX.NumPages m → is_u16 Size →
  (∀ i, 0 <= i < Size → ∃ b, val i = Done b) →
  ((∀ i, 0 <= i < Size → u16 (Offset + i) < 0x4000) →
     ∃ m', for_loop (Z.to_nat Size) 0
             (λ i m0, b ← val i; ZX.writeByteToPage m0 Page (u16 (Offset + i)) b) m
           = Done m' ∧
       ∀ i, 0 <= i < Size →
         elem (ZX.Memory m') (Page * 0x4000 + u16 (Offset + i)) = val i ∧
         elem (ZX.MemUsage m') (Page * 0x4000 + u16 (Offset + i)) = Done true) ∧
  ((∃ msg, for_loop (Z.to_nat Size) 0
             (λ i m0, b ← val i; ZX.writeByteToPage m0 Page (u16 (Offset + i)) b) m
           = Fatal msg) ↔
   ∃ j, 0 <= j < Size ∧ u16 (Offset + j) >= 0x4000).
Proof.
  intros Hwf HPage HSize Hval. unfold is_u16 in HSize.
  assert (∀ i : nat, (i < Z.to_nat Size)%nat → ∃ b, val (Z.of_nat i) = Done b)
    as Hval' by (intros i Hi; apply Hval; lia).
  assert ((∀ i, 0 <= i < Size → u16 (Offset + i) < 0x4000) →
     ∃ m', for_loop (Z.to_nat Size) 0
             (λ i m0, b ← val i; ZX.writeByteToPage m0 Page (u16 (Offset + i)) b) m
           = Done m' ∧
       ∀ i, 0 <= i < Size →
         elem (ZX.Memory m') (Page * 0x4000 + u16 (Offset + i)) = val i ∧
         elem (ZX.MemUsage m') (Page * 0x4000 + u16 (Offset + i)) = Done true)
    as Hdone.
  { intros Hok.
    destruct (page_loop_done m Page Offset val Hwf HPage (Z.to_nat Size))
      as (m' & Hm' & _ & _ & Hbytes); [lia|done|intros i Hi; apply Hok; lia|].
    exists m'. split; [done|]. intros i Hi.
    destruct (Hbytes (Z.to_nat i)) as (b & Hb & Hmem & Huse); [lia|].
    rewrite Z2Nat.id in Hb, Hmem, Huse by lia. by rewrite Hb. }
  split; [done|]. split.
  - intros [msg Hmsg].
    destruct (bounded_search (λ k, u16 (Offset + Z.of_nat k) >= 0x4000) (Z.to_nat Size))
      as [Hnone|(j & Hj & Hbad & _)].
    + destruct Hdone as (m' & Hm' & _); [|congruence].
      intros i Hi. specialize (Hnone (Z.to_nat i)).
      rewrite Z2Nat.id in Hnone by lia. lia.
    + exists (Z.of_nat j). split; [lia|done].
  - intros (j & Hj & Hbad).
    destruct (bounded_search (λ k, u16 (Offset + Z.of_nat k) >= 0x4000) (Z.to_nat Size))
      as [Hnone|(j' & Hj' & Hbad' & Hleast)].
    + specialize (Hnone (Z.to_nat j)). rewrite Z2Nat.id in Hnone by lia. lia.
    + eexists. apply (page_loop_fatal m Page Offset val Hwf HPage _ j');
        [lia|done|done| |done].
      intros i Hi. specialize (Hleast i Hi). lia.
Qed.

(** C9, as the code has it: for a page of the model, [writeByteToPage(page,
    offset, byte)] ends the run exactly when [offset >= PageSize], an offset
    equal to [0x4000] included; below that it stores the byte at
    [page * 0x4000 + offset] and marks it used.  [memsetInPage] and
    [memcpyToPage] write when every offset [(Offset + i) mod 0x10000] is below
    [0x4000], and end the run exactly when one of them is not. *)
Theorem zx_page_write_offset_guard (m : ZX.ZXMemModel) (Page : Z) :
  ZX.wf m → 0 <= Page < ZX.NumPages m →
  (∀ Offset Byte, is_u16 Offset →
     (Offset >= 0x4000 →
        ZX.writeByteToPage m Page Offset Byte = Fatal (ZX.offset_msg Offset)) ∧
     (Offset < 0x4000 →
        ∃ m', ZX.writeByteToPage m Page Offset Byte = Done m' ∧
              elem (ZX.Memory m') (Page * 0x4000 + Offset) = Done Byte ∧
              elem (ZX.MemUsage m') (Page * 0x4000 + Offset) = Done true)) ∧
  (∀ Offset Byte Size, is_u16 Size →
     ((∀ i, 0 <= i < Size → u16 (Offset + i) < 0x4000) →
        ∃ m', ZX.memsetInPage m Page Offset Byte Size = Done m' ∧
          ∀ i, 0 <= i < Size →
            elem (ZX.Memory m') (Page * 0x4000 + u16 (Offset + i)) = Done Byte ∧
            elem (ZX.MemUsage m') (Page * 0x4000 + u16 (Offset + i)) = Done true) ∧
     ((∃ msg, ZX.memsetInPage m Page Offset Byte Size = Fatal msg) ↔
      ∃ j, 0 <= j < Size ∧ u16 (Offset + j) >= 0x4000)) ∧
  (∀ Offset Src Size, is_u16 Size → Size <= Z.of_nat (length Src) →
     ((∀ i, 0 <= i < Size → u16 (Offset + i) < 0x4000) →
        ∃ m', ZX.memcpyToPage m Page Offset Src Size = Done m' ∧
          ∀ i, 0 <= i < Size →
            elem (ZX.Memory m') (Page * 0x4000 + u16 (Offset + i)) = elem Src i ∧
            elem (ZX.MemUsage m') (Page * 0x4000 + u16 (Offset + i)) = Done true) ∧
     ((∃ msg, ZX.memcpyToPage m Page Offset Src Size = Fatal msg) ↔
      ∃ j, 0 <= j < Size ∧ u16 (Offset + j) >= 0x4000)).
Proof.
  intros Hwf HPage. split; [|split].
  - intros Offset Byte HOffset. unfold is_u16 in HOffset. split.
    + apply zx_writeByteToPage_fatal.
    + intros Hlt. rewrite zx_writeByteToPage_done by (done || lia).
      eexists. split; [done|]. cbn [ZX.with_mem ZX.Memory ZX.MemUsage].
      destruct Hwf as (_ & _ & _ & Hmem & Huse & _). unfold ZX.PageSize in Hmem.
      split; apply elem_insert_eq; lia.
  - intros Offset Byte Size HSize.
    apply (page_loop_outcome m Page Offset Size (λ _, Done Byte)); [done..|].
    intros i _. by exists Byte.
  - intros Offset Src Size HSize HSrc.
    apply (page_loop_outcome m Page Offset Size (elem Src)); [done..|].
    intros i Hi. destruct (elem_in_range Src i) as (b & Hb & _); [lia|by exists b].
Qed.

(** C9 as stated fails at the offset equal to [PageSize]: it does not exceed
    [PageSize], and the write ends the run. *)
Lemma zx_writeByteToPage_at_page_size :
  ¬ (0x4000 > ZX.PageSize) ∧
  ZX.writeByteToPage (ZX.new 8) 0 0x4000 0xAA = Fatal (ZX.offset_msg 0x4000).
Proof. split; [unfold ZX.PageSize; lia|]. by apply zx_writeByteToPage_fatal. Qed.

Lemma zx_page_write_offset_guard_witness :
  ZX.wf (ZX.new 8) ∧ 0 <= 7 < ZX.NumPages (ZX.new 8) ∧
  ZX.writeByteToPage (ZX.new 8) 7 0x4000 0xAA = Fatal (ZX.offset_msg 0x4000) ∧
  ∃ m', ZX.writeByteToPage (ZX.new 8) 7 0x3FFF 0xAA = Done m' ∧
        elem (ZX.Memory m') (7 * 0x4000 + 0x3FFF) = Done 0xAA.
Proof.
  assert (ZX.wf (ZX.new 8)) as Hwf by (apply zx_wf_new; lia).
  assert (0 <= 7 < ZX.NumPages (ZX.new 8)) as HPage by (cbn [ZX.new ZX.NumPages]; lia).
  assert (is_u16 0x4000) as H1 by (unfold is_u16; lia).
  assert (is_u16 0x3FFF) as H2 by (unfold is_u16; lia).
  assert (0x4000 >= 0x4000) as H3 by lia.
  assert (0x3FFF < 0x4000) as H4 by lia.
  split; [exact Hwf|]. split; [exact HPage|].
  destruct (zx_page_write_offset_guard (ZX.new 8) 7 Hwf HPage) as (Hone & _ & _).
  split.
  - exact (proj1 (Hone 0x4000 0xAA H1) H3).
  - destruct (proj2 (Hone 0x3FFF 0xAA H2) H4) as (m' & Hw & Hmem & _).
    exists m'. exact (conj Hw Hmem).
Defined.

(** ** The registry *)

Lemma sample_manager_current :
  MemoryManager.getMemModel sample_manager = Done plain_model.
Proof.
  unfold MemoryManager.getMemModel, sample_manager.
  cbn [MemoryManager.CurrentMemModel MemoryManager.MemModels].
  by rewrite lookup_insert_eq.
Qed.

Lemma plain_model_fresh (a : Z) :
  is_u16 a →
  readByte plain_model a = Done 0 ∧ usedAddr plain_model a = Done false.
Proof.
  intros Ha. unfold is_u16 in Ha.
  unfold plain_model, Plain.new, Plain.clear.
  cbn [readByte usedAddr Plain.readByte Plain.usedAddr Plain.Memory Plain.MemUsage].
  rewrite !length_replicate.
  split; (apply elem_lookup; [lia|]); apply lookup_replicate_2;
    unfold Plain.MemorySize; lia.
Qed.

(** C10, as the code has it: [MemoryManager::writeByte(a, v)] is the
    committed write [writeByte(a, v, false)] of the current model, whatever
    [a] and [v]: afterwards the current model reads [v] at [a],
    [usedAddr(a)] is true, and the byte is still [v] after any number of
    [clearEphemerals()] calls.  [MemoryManager::writeByte] takes no ephemeral
    flag: it is the call [getMemModel().writeByte(a, v, false)].  The same
    call with the flag true, on the reference the public [getMemModel()]
    returns, stores the byte in the current model and leaves its used-marker
    as it was. *)
Theorem manager_writeByte_committed
    (mm : MemoryManager.MemoryManager) (m : MemModel) (a v : Z) :
  MemoryManager.getMemModel mm = Done m → wf m → is_u16 a →
  (∃ mm' m',
    MemoryManager.writeByte mm a v = Done mm' ∧
    writeByte m a v false = Done m' ∧
    MemoryManager.getMemModel mm' = Done m' ∧
    MemoryManager.CurrentMemModel mm' = MemoryManager.CurrentMemModel mm ∧
    readByte m' a = Done v ∧
    usedAddr m' a = Done true ∧
    ∀ n : nat, ∃ m'', clearEphemerals_times n m' = Done m'' ∧
                      readByte m'' a = Done v) ∧
  MemoryManager.writeByte mm a v =
    MemoryManager.onMemModel mm (λ m0, writeByte m0 a v false) ∧
  (∃ mm2 m2,
    MemoryManager.onMemModel mm (λ m0, writeByte m0 a v true) = Done mm2 ∧
    MemoryManager.getMemModel mm2 = Done m2 ∧
    readByte m2 a = Done v ∧
    usedAddr m2 a = usedAddr m a).
Proof.
  intros Hget Hwf Ha. split; [|split; [done|]].
  - destruct (writeByte_read m a v false) as (m' & Hw & Hwf' & Hr & Hu & _);
      [done..|].
    unfold MemoryManager.writeByte, MemoryManager.setCurrent. rewrite Hget.
    cbn [mbind outcome_bind]. rewrite Hw. cbn [mbind outcome_bind].
    unfold MemoryManager.getMemModel in *.
    destruct (MemoryManager.CurrentMemModel mm) as [name|]; [|done].
    eexists _, m'. split; [done|]. split; [done|].
    cbn [MemoryManager.CurrentMemModel MemoryManager.MemModels].
    rewrite lookup_insert_eq. repeat split; try done.
    intros n.
    destruct (clearEphemerals_times_keeps m' a v n) as (m'' & Hc & _ & _ & Hr'');
      [done..|].
    by exists m''.
  - destruct (writeByte_read m a v true) as (m2 & Hw & _ & Hr & Hu & _);
      [done..|].
    unfold MemoryManager.onMemModel, MemoryManager.setCurrent. rewrite Hget.
    cbn [mbind outcome_bind]. rewrite Hw. cbn [mbind outcome_bind].
    unfold MemoryManager.getMemModel in *.
    destruct (MemoryManager.CurrentMemModel mm) as [name|]; [|done].
    eexists _, m2. split; [done|].
    cbn [MemoryManager.CurrentMemModel MemoryManager.MemModels].
    rewrite lookup_insert_eq. by repeat split.
Qed.

Lemma manager_writeByte_committed_witness :
  MemoryManager.getMemModel sample_manager = Done plain_model ∧
  wf plain_model ∧ is_u16 0x8000 ∧
  ∃ mm' m', MemoryManager.writeByte sample_manager 0x8000 0xC9 = Done mm' ∧
            MemoryManager.getMemModel mm' = Done m' ∧
            usedAddr m' 0x8000 = Done true.
Proof.
  assert (wf plain_model) as Hwf by apply plain_wf_new.
  assert (is_u16 0x8000) as Ha by (unfold is_u16; lia).
  split; [exact sample_manager_current|]. split; [exact Hwf|]. split; [exact Ha|].
  destruct (proj1 (manager_writeByte_committed sample_manager plain_model 0x8000 0xC9
                     sample_manager_current Hwf Ha))
    as (mm' & m' & Hw & _ & Hget & _ & _ & Hu & _).
  exists mm', m'. exact (conj Hw (conj Hget Hu)).
Defined.

(** C10 as stated fails in its last clause: the registry does expose an
    ephemeral single-byte write.  On the reference that [getMemModel()]
    returns, [writeByte(0x8000, 0xC9, true)] stores the byte in the current
    model of the registry, [usedAddr(0x8000)] stays false, and
    [clearEphemerals()] zeroes the byte again. *)
Lemma registry_ephemeral_write_path :
  ∃ mm' m' m'',
    MemoryManager.onMemModel sample_manager (λ m0, writeByte m0 0x8000 0xC9 true)
      = Done mm' ∧
    MemoryManager.getMemModel mm' = Done m' ∧
    readByte m' 0x8000 = Done 0xC9 ∧
    usedAddr m' 0x8000 = Done false ∧
    clearEphemerals m' = Done m'' ∧
    readByte m'' 0x8000 = Done 0.
Proof.
  assert (wf plain_model) as Hwf by apply plain_wf_new.
  assert (is_u16 0x8000) as Ha by (unfold is_u16; lia).
  destruct (plain_model_fresh 0x8000 Ha) as [_ Hfresh].
  destruct (writeByte_read plain_model 0x8000 0xC9 true Hwf Ha)
    as (m' & Hw & Hwf' & Hr & Hu & _).
  destruct (clearEphemerals_read m' 0x8000 Hwf' Ha)
    as (m'' & u & b & Hc & _ & Hu' & Hb & Hr'' & _).
  rewrite Hu, Hfresh in Hu'. injection Hu' as <-.
  eexists. exists m', m''.
  unfold MemoryManager.onMemModel. rewrite sample_manager_current.
  cbn [mbind outcome_bind]. rewrite Hw. cbn [mbind outcome_bind].
  unfold MemoryManager.setCurrent, MemoryManager.getMemModel, sample_manager.
  cbn [MemoryManager.CurrentMemModel MemoryManager.MemModels].
  split; [reflexivity|].
  cbn [MemoryManager.CurrentMemModel MemoryManager.MemModels].
  rewrite lookup_insert_eq. cbn [from_option].
  split; [reflexivity|]. split; [exact Hr|]. split; [by rewrite Hu|].
  split; [exact Hc|]. exact Hr''.
Qed.

(** * Further properties of the memory models *)

(** ** Single writes and the roll-back *)

Lemma writeByte_effect (m : MemModel) (a v : Z) (e : bool) :
  wf m → is_u16 a →
  ∃ i m', location m a = Done i ∧
          0 <= i < Z.of_nat (length (getPtrToMem m)) ∧
          writeByte m a v e = Done m' ∧ wf m' ∧
          (∀ b, location m' b = location m b) ∧
          getPtrToMem m' = <[Z.to_nat i := v]> (getPtrToMem m) ∧
          usage m' = (if e then usage m else <[Z.to_nat i := true]> (usage m)).
Proof.
  intros Hwf Ha.
  destruct (location_in_range m a) as (i & Hloc & Hi); [done..|].
  destruct (writeByte_spec m a v i e) as (m' & Hw & Hmem & Huse & Hsame & Hwf');
    [done..|].
  by exists i, m'.
Qed.

(** A write, ephemeral or not, leaves the byte and the used-marker of every
    address at another place of the buffer as they were; on the flat model
    these are all the other addresses. *)
Theorem writeByte_frame (m : MemModel) (a b v : Z) (e : bool) :
  wf m → is_u16 a → is_u16 b → location m b ≠ location m a →
  ∃ m', writeByte m a v e = Done m' ∧
        readByte m' b = readByte m b ∧
        usedAddr m' b = usedAddr m b ∧
        (∀ p, m = PlainModel p → location m b ≠ location m a ↔ b ≠ a).
Proof.
  intros Hwf Ha Hb Hne. pose proof (wf_usage_length m Hwf) as Hlen.
  destruct (writeByte_effect m a v e) as (i & m' & Hloc & Hi & Hw & _ & Hsame & Hmem & Huse);
    [done..|].
  destruct (location_in_range m b) as (j & Hlocb & Hj); [done..|].
  assert (j ≠ i) as Hji by (intros ->; congruence).
  exists m'. split; [done|].
  rewrite (read_at m' b j), (used_at m' b j), (read_at m b j), (used_at m b j)
    by (by rewrite ?Hsame).
  rewrite Hmem, Huse. split; [by rewrite elem_insert_ne by lia|]. split.
  - destruct e; [done|]. by rewrite elem_insert_ne by lia.
  - intros p ->. cbn [location]. split; [congruence|]. intros H [= ->]. done.
Qed.

Lemma writeByte_frame_witness :
  wf plain_model ∧ is_u16 0x8000 ∧ is_u16 0x8001 ∧
  location plain_model 0x8001 ≠ location plain_model 0x8000 ∧
  ∃ m', writeByte plain_model 0x8000 0x3E false = Done m' ∧
        readByte m' 0x8001 = readByte plain_model 0x8001.
Proof.
  assert (wf plain_model) as Hwf by apply plain_wf_new.
  assert (is_u16 0x8000) as Ha by (unfold is_u16; lia).
  assert (is_u16 0x8001) as Hb by (unfold is_u16; lia).
  assert (location plain_model 0x8001 ≠ location plain_model 0x8000) as Hne
    by (intros [=]).
  split; [exact Hwf|]. split; [exact Ha|]. split; [exact Hb|]. split; [exact Hne|].
  destruct (writeByte_frame plain_model 0x8000 0x8001 0x3E false Hwf Ha Hb Hne)
    as (m' & Hw & Hr & _).
  exists m'. exact (conj Hw Hr).
Defined.

Lemma writeByte_keeps_used (m : MemModel) (a b v : Z) (e : bool) :
  wf m → is_u16 a → is_u16 b → usedAddr m a = Done true →
  ∃ m', writeByte m b v e = Done m' ∧ wf m' ∧ usedAddr m' a = Done true.
Proof.
  intros Hwf Ha Hb Hu. pose proof (wf_usage_length m Hwf) as Hlen.
  destruct (writeByte_effect m b v e) as (i & m' & Hloc & Hi & Hw & Hwf' & Hsame & _ & Huse);
    [done..|].
  destruct (location_in_range m a) as (j & Hloca & Hj); [done..|].
  exists m'. split; [done|]. split; [done|].
  rewrite (used_at m a j) in Hu by done.
  rewrite (used_at m' a j) by (by rewrite Hsame). rewrite Huse.
  destruct e; [done|]. destruct (decide (i = j)) as [->|Hne].
  - apply elem_insert_eq. lia.
  - by rewrite elem_insert_ne by lia.
Qed.

(** Once [usedAddr(a)] is true, no [writeByte] (to any address, with either
    flag), no [writeWord] and no [clearEphemerals()] makes it false again, and
    [clearEphemerals()] leaves the byte. *)
Theorem used_marker_never_cleared (m : MemModel) (a : Z) :
  wf m → is_u16 a → usedAddr m a = Done true →
  (∀ b v e, is_u16 b →
     ∃ m', writeByte m b v e = Done m' ∧ usedAddr m' a = Done true) ∧
  (∀ b w e, is_u16 b → is_u16 w →
     ∃ m', writeWord m b w e = Done m' ∧ usedAddr m' a = Done true) ∧
  (∃ m', clearEphemerals m = Done m' ∧ usedAddr m' a = Done true ∧
         readByte m' a = readByte m a).
Proof.
  intros Hwf Ha Hu. split; [|split].
  - intros b v e Hb.
    destruct (writeByte_keeps_used m a b v e) as (m' & Hw & _ & Hu'); [done..|].
    by exists m'.
  - intros b w e Hb Hw. unfold writeWord.
    destruct (writeByte_keeps_used m a b (u8 (Z.land w 255)) e)
      as (m1 & -> & Hwf1 & Hu1); [done..|].
    cbn [mbind outcome_bind].
    destruct (writeByte_keeps_used m1 a (u16 (b + 1)) (u8 (Z.shiftr w 8)) e)
      as (m2 & -> & _ & Hu2); [done| done |unfold is_u16, u16; zlia|done|].
    by exists m2.
  - destruct (clearEphemerals_read m a) as (m' & u & x & Hc & _ & Hu' & Hx & Hr & Hu'' & _);
      [done..|].
    rewrite Hu in Hu'. injection Hu' as <-. exists m'. by rewrite Hx.
Qed.

Lemma used_marker_never_cleared_witness :
  ∃ m0, writeByte zx128_model 0xC000 0x21 false = Done m0 ∧
    wf m0 ∧ is_u16 0xC000 ∧ usedAddr m0 0xC000 = Done true ∧
    ∃ m', writeByte m0 0xC000 0x77 true = Done m' ∧
          usedAddr m' 0xC000 = Done true.
Proof.
  assert (wf zx128_model) as Hwf by (apply zx_wf_new; lia).
  assert (is_u16 0xC000) as Ha by (unfold is_u16; lia).
  destruct (writeByte_read zx128_model 0xC000 0x21 false Hwf Ha)
    as (m0 & Hw0 & Hwf0 & _ & Hu0 & _).
  exists m0. split; [exact Hw0|]. split; [exact Hwf0|]. split; [exact Ha|].
  split; [exact Hu0|].
  exact (proj1 (used_marker_never_cleared m0 0xC000 Hwf0 Ha Hu0) 0xC000 0x77 true Ha).
Defined.

(** After [clearEphemerals()] every address keeps its used-marker, reads as
    before when the marker is true and reads 0 when it is false. *)
Theorem clearEphemerals_zeroes_unmarked (m : MemModel) :
  wf m →
  ∃ m', clearEphemerals m = Done m' ∧ wf m' ∧
    ∀ a, is_u16 a →
      ∃ (u : bool) (b : Z),
        usedAddr m a = Done u ∧ readByte m a = Done b ∧
        usedAddr m' a = Done u ∧
        readByte m' a = Done (if u then b else 0).
Proof.
  intros Hwf.
  destruct (clearEphemerals_spec m Hwf) as (m' & Hc & _ & _ & _ & Hwf' & _).
  exists m'. split; [done|]. split; [done|]. intros a Ha.
  destruct (clearEphemerals_read m a) as (m1 & u & b & Hc1 & _ & Hu & Hb & Hr & Hu' & _);
    [done..|].
  rewrite Hc in Hc1. injection Hc1 as <-. by exists u, b.
Qed.

Lemma clearEphemerals_zeroes_unmarked_witness :
  wf zx128_model ∧
  ∃ m', clearEphemerals zx128_model = Done m' ∧ wf m'.
Proof.
  assert (wf zx128_model) as Hwf by (apply zx_wf_new; lia).
  split; [exact Hwf|].
  destruct (clearEphemerals_zeroes_unmarked zx128_model Hwf) as (m' & Hc & Hwf' & _).
  exists m'. exact (conj Hc Hwf').
Defined.

Lemma keep_used_replicate (n : nat) :
  keep_used (replicate n false) (replicate n 0) = replicate n 0.
Proof.
  apply list_eq. intros j. rewrite keep_used_lookup.
  destruct (decide (j < n)%nat).
  - by rewrite !lookup_replicate_2 by done.
  - by rewrite (lookup_ge_None_2 (replicate n false)) by (rewrite length_replicate; lia);
      rewrite (proj1 (lookup_replicate_None n 0 j)) by lia.
Qed.

(** [clear()] zeroes the bytes and the markers and nothing else: a second
    [clear()] and a [clearEphemerals()] after it change nothing, and on the
    banked model the slots keep their pages, so every address keeps its
    place in the buffer. *)
Theorem clear_keeps_mapping (m : MemModel) :
  wf m →
  clear (clear m) = clear m ∧
  clearEphemerals (clear m) = Done (clear m) ∧
  (∀ a, location (clear m) a = location m a) ∧
  (∀ z, m = ZXModel z →
        ∀ s, ZX.getPageNumInSlot (ZX.clear z) s = ZX.getPageNumInSlot z s).
Proof.
  intros Hwf. pose proof (wf_usage_length m Hwf) as Hlen.
  destruct m as [p|z]; cbn [clear clearEphemerals location usage getPtrToMem] in *.
  - unfold Plain.getPtrToMem in Hlen. repeat split; try done.
    + unfold Plain.clear. cbn. by rewrite !length_replicate.
    + rewrite plain_clearEphemerals_spec by (cbn; by rewrite !length_replicate).
      unfold Plain.clear. cbn [Plain.Memory Plain.MemUsage fmap outcome_fmap].
      rewrite Hlen. by rewrite keep_used_replicate.
  - unfold ZX.getPtrToMem in Hlen. repeat split; try done.
    + unfold ZX.clear. cbn. by rewrite !length_replicate.
    + rewrite zx_clearEphemerals_spec by (cbn; by rewrite !length_replicate).
      unfold ZX.clear, ZX.with_mem.
      cbn [ZX.Memory ZX.MemUsage ZX.NumPages ZX.NumSlots ZX.SlotPages fmap outcome_fmap].
      rewrite Hlen. by rewrite keep_used_replicate.
Qed.

Lemma clear_keeps_mapping_witness :
  wf zx128_model ∧
  clearEphemerals (clear zx128_model) = Done (clear zx128_model).
Proof.
  assert (wf zx128_model) as Hwf by (apply zx_wf_new; lia).
  split; [exact Hwf|].
  exact (proj1 (proj2 (clear_keeps_mapping zx128_model Hwf))).
Defined.

(** ** Bulk writes through logical addresses *)

Lemma writeByte_isPagedMemory (m m' : MemModel) (a v : Z) (e : bool) :
  writeByte m a v e = Done m' → isPagedMemory m' = isPagedMemory m.
Proof.
  destruct m as [p|z]; cbn [writeByte].
  - destruct (Plain.writeByte p a v e); cbn; [|done..]. by intros [= <-].
  - destruct (ZX.writeByte z a v e); cbn; [|done..]. by intros [= <-].
Qed.

Lemma bulk_loop_step (m : MemModel) (Offset : Z) (val : Z → outcome Z)
    (n k : nat) (m' : MemModel) :
  (k < n)%nat →
  (∀ i : nat, (i < n)%nat → ∃ b, val (Z.of_nat i) = Done b) →
  bulk_loop_inv m Offset val k m' →
  ∃ m'', bulk_loop_body Offset val (Z.of_nat k) m' = Done m'' ∧
         bulk_loop_inv m Offset val (S k) m''.
Proof.
  intros Hk Hval (Hwf' & Hpaged & Hsame & Hlen & Hframe & Hwritten).
  unfold bulk_loop_body. destruct (Hval k Hk) as [bk Hbk]. rewrite Hbk.
  cbn [mbind outcome_bind].
  assert (is_u16 (u16 (Offset + Z.of_nat k))) as Hak by (unfold is_u16, u16; zlia).
  destruct (writeByte_effect m' (u16 (Offset + Z.of_nat k)) bk false)
    as (lk & m'' & Hlk & Hlkr & Hw & Hwf'' & Hsame' & Hmem & Huse); [done..|].
  pose proof (wf_usage_length m' Hwf') as Hul.
  rewrite Hsame in Hlk.
  exists m''. split; [done|]. split; [done|]. split.
  { rewrite <- Hpaged. by eapply writeByte_isPagedMemory. }
  split. { intros b. by rewrite Hsame'. }
  split. { by rewrite Hmem, length_insert. }
  split.
  - intros j Hj Hfresh. rewrite Hmem, Huse.
    assert (lk ≠ j) as Hne.
    { intros ->. by apply (Hfresh k); [lia|]. }
    rewrite !elem_insert_ne by lia. apply Hframe; [done|].
    intros i Hi. apply Hfresh. lia.
  - intros i Hi. rewrite Hmem, Huse. destruct (decide (i = k)) as [->|Hik].
    + exists lk, bk, k. split; [done|].
      split; [apply elem_insert_eq; lia|]. split; [by apply elem_insert_eq|].
      split; [lia|done].
    + destruct (Hwritten i) as (li & b & i' & Hli & Hu & Hb & Hi' & Hli' & Hv);
        [lia|].
      destruct (decide (li = lk)) as [->|Hne].
      * exists lk, bk, k. split; [done|].
        split; [apply elem_insert_eq; lia|]. split; [by apply elem_insert_eq|].
        split; [lia|done].
      * exists li, b, i'. split; [done|].
        assert (0 <= li) by (apply elem_Done_inv in Hu; lia).
        rewrite !elem_insert_ne by lia. split; [done|]. split; [done|].
        split; [lia|done].
Qed.

Lemma bulk_loop_done (m : MemModel) (Offset : Z) (val : Z → outcome Z) (n : nat) :
  wf m →
  (∀ i : nat, (i < n)%nat → ∃ b, val (Z.of_nat i) = Done b) →
  ∃ m', for_loop n 0 (bulk_loop_body Offset val) m = Done m' ∧
        bulk_loop_inv m Offset val n m'.
Proof.
  intros Hwf Hval. apply for_loop_invariant.
  - split; [done|]. repeat split; try done. lia.
  - intros k m' Hk Hinv. by apply (bulk_loop_step m Offset val n).
Qed.

(** What the invariant gives for an address outside the written ones. *)
Lemma bulk_loop_frame (m m' : MemModel) (Offset : Z) (val : Z → outcome Z)
    (n : nat) (b : Z) :
  wf m → is_u16 b → bulk_loop_inv m Offset val n m' →
  (∀ i : nat, (i < n)%nat →
     location m (u16 (Offset + Z.of_nat i)) ≠ location m b) →
  readByte m' b = readByte m b ∧ usedAddr m' b = usedAddr m b.
Proof.
  intros Hwf Hb (_ & _ & Hsame & _ & Hframe & _) Hfresh.
  destruct (location_in_range m b) as (j & Hj & Hjr); [done..|].
  rewrite (read_at m' b j), (used_at m' b j), (read_at m b j), (used_at m b j)
    by (by rewrite ?Hsame).
  apply Hframe; [lia|]. intros i Hi. rewrite <- Hj. by apply Hfresh.
Qed.

(** [memsetInMemory(Offset, Byte, Size)] never fails: it wraps at [0x10000],
    leaves [Byte] and a true used-marker at every address
    [(Offset + i) mod 0x10000], [i < Size], and leaves every address at
    another place of the buffer as it was. *)
Theorem memsetInMemory_fills (m : MemModel) (Offset Byte Size : Z) :
  wf m → is_u16 Size →
  ∃ m', memsetInMemory m Offset Byte Size = Done m' ∧ wf m' ∧
    (∀ i, 0 <= i < Size →
       readByte m' (u16 (Offset + i)) = Done Byte ∧
       usedAddr m' (u16 (Offset + i)) = Done true) ∧
    (∀ b, is_u16 b →
       (∀ i, 0 <= i < Size → location m (u16 (Offset + i)) ≠ location m b) →
       readByte m' b = readByte m b ∧ usedAddr m' b = usedAddr m b).
Proof.
  intros Hwf HSize. unfold is_u16 in HSize.
  destruct (bulk_loop_done m Offset (λ _, Done Byte) (Z.to_nat Size))
    as (m' & Hm' & Hinv); [done|by eauto|].
  exists m'. split; [exact Hm'|]. split; [apply Hinv|]. split.
  - intros i Hi. destruct Hinv as (_ & _ & Hsame & _ & _ & Hwritten).
    destruct (Hwritten (Z.to_nat i)) as (li & b & i' & Hli & Hu & Hb & _ & _ & Hv);
      [lia|].
    rewrite Z2Nat.id in Hli by lia. injection Hv as <-.
    by rewrite (read_at m' _ li), (used_at m' _ li) by (by rewrite Hsame).
  - intros b Hb Hfresh. apply (bulk_loop_frame m m' Offset (λ _, Done Byte) (Z.to_nat Size));
      [done..|].
    intros i Hi. apply Hfresh. lia.
Qed.

Lemma memsetInMemory_fills_witness :
  wf zx128_model ∧ is_u16 0x20 ∧
  ∃ m', memsetInMemory zx128_model 0xFFF0 0xFF 0x20 = Done m' ∧
        readByte m' (u16 (0xFFF0 + 0x1F)) = Done 0xFF.
Proof.
  assert (wf zx128_model) as Hwf by (apply zx_wf_new; lia).
  assert (is_u16 0x20) as Hs by (unfold is_u16; lia).
  assert (0 <= 0x1F < 0x20) as Hi by lia.
  split; [exact Hwf|]. split; [exact Hs|].
  destruct (memsetInMemory_fills zx128_model 0xFFF0 0xFF 0x20 Hwf Hs)
    as (m' & Hm & _ & Hfill & _).
  exists m'. exact (conj Hm (proj1 (Hfill 0x1F Hi))).
Defined.

Lemma memcpy_core (m : MemModel) (Offset : Z) (Src : list Z) (Size : Z) :
  wf m → is_u16 Size → Size <= Z.of_nat (length Src) →
  (∀ i i', 0 <= i < i' → i' < Size →
     location m (u16 (Offset + i)) ≠ location m (u16 (Offset + i'))) →
  ∃ m', memcpyToMemory m Offset Src Size = Done m' ∧ wf m' ∧
    isPagedMemory m' = isPagedMemory m ∧
    (∀ i, 0 <= i < Size →
       readByte m' (u16 (Offset + i)) = elem Src i ∧
       usedAddr m' (u16 (Offset + i)) = Done true) ∧
    (∀ b, is_u16 b →
       (∀ i, 0 <= i < Size → location m (u16 (Offset + i)) ≠ location m b) →
       readByte m' b = readByte m b ∧ usedAddr m' b = usedAddr m b).
Proof.
  intros Hwf HSize HSrc Hdistinct. unfold is_u16 in HSize.
  destruct (bulk_loop_done m Offset (elem Src) (Z.to_nat Size))
    as (m' & Hm' & Hinv); [done| |].
  { intros i Hi. destruct (elem_in_range Src (Z.of_nat i)) as (b & Hb & _);
      [lia|by exists b]. }
  exists m'. split; [exact Hm'|]. split; [apply Hinv|]. split; [apply Hinv|]. split.
  - intros i Hi. destruct Hinv as (_ & _ & Hsame & _ & _ & Hwritten).
    destruct (Hwritten (Z.to_nat i)) as (li & b & i' & Hli & Hu & Hb & Hi' & Hli' & Hv);
      [lia|].
    rewrite Z2Nat.id in Hli by lia.
    assert (Z.of_nat i' = i) as Heq.
    { destruct (decide (Z.of_nat i' = i)) as [|Hne]; [done|].
      destruct (Hdistinct i (Z.of_nat i')); [lia|lia|congruence]. }
    rewrite Heq in Hv. rewrite Hv.
    by rewrite (read_at m' _ li), (used_at m' _ li) by (by rewrite Hsame).
  - intros b Hb Hfresh.
    apply (bulk_loop_frame m m' Offset (elem Src) (Z.to_nat Size)); [done..|].
    intros i Hi. apply Hfresh. lia.
Qed.

Lemma zx_location_inj (z : ZX.ZXMemModel) (a b : Z) :
  ZX.wf z → NoDup (ZX.SlotPages z) → is_u16 a → is_u16 b →
  ZX.addrToOffset z a = ZX.addrToOffset z b → a = b.
Proof.
  intros Hwf Hnd Ha Hb.
  destruct (zx_addrToOffset_spec z a) as (p & Hp & Hpr & ->); [done..|].
  destruct (zx_addrToOffset_spec z b) as (p' & Hp' & Hpr' & ->); [done..|].
  intros [= Heq]. unfold is_u16 in *.
  assert (p = p') as <- by zlia.
  pose proof (NoDup_lookup _ _ _ _ Hnd Hp Hp') as Hslot. zlia.
Qed.

(** The addresses of a bulk write are at different places of the buffer on
    the flat model, and on the banked model when no page is in two slots. *)
Lemma bulk_locations_distinct (m : MemModel) (Offset Size : Z) :
  wf m → is_u16 Size →
  match m with
  | PlainModel _ => True
  | ZXModel z => NoDup (ZX.SlotPages z)
  end →
  ∀ i i', 0 <= i < i' → i' < Size →
    location m (u16 (Offset + i)) ≠ location m (u16 (Offset + i')).
Proof.
  intros Hwf HSize Hnd i i' Hi Hi'. unfold is_u16 in HSize.
  assert (u16 (Offset + i) ≠ u16 (Offset + i')) as Hne by (unfold u16; zlia).
  destruct m as [p|z]; cbn [location wf] in *.
  - congruence.
  - intros Heq. apply Hne. apply (zx_location_inj z); [done..| | |done];
      unfold is_u16, u16; zlia.
Qed.

(** [memcpyToMemory(Offset, Src, Size)] wraps at [0x10000] and, when the
    addresses it writes are at different places of the buffer, leaves
    [Src[i]] and a true used-marker at [(Offset + i) mod 0x10000] for every
    [i < Size]; every address at another place is as it was. *)
Theorem memcpyToMemory_readback (m : MemModel) (Offset : Z) (Src : list Z)
    (Size : Z) :
  wf m → is_u16 Size → Size <= Z.of_nat (length Src) →
  (∀ i i', 0 <= i < i' → i' < Size →
     location m (u16 (Offset + i)) ≠ location m (u16 (Offset + i'))) →
  ∃ m', memcpyToMemory m Offset Src Size = Done m' ∧ wf m' ∧
    (∀ i, 0 <= i < Size →
       readByte m' (u16 (Offset + i)) = elem Src i ∧
       usedAddr m' (u16 (Offset + i)) = Done true) ∧
    (∀ b, is_u16 b →
       (∀ i, 0 <= i < Size → location m (u16 (Offset + i)) ≠ location m b) →
       readByte m' b = readByte m b ∧ usedAddr m' b = usedAddr m b).
Proof.
  intros Hwf HSize HSrc Hdistinct.
  destruct (memcpy_core m Offset Src Size) as (m' & Hm & Hwf' & _ & Hread & Hframe);
    [done..|].
  by exists m'.
Qed.

Lemma memcpyToMemory_readback_witness :
  wf plain_model ∧ is_u16 3 ∧ 3 <= Z.of_nat (length [0x21; 0x00; 0x40]) ∧
  ∃ m', memcpyToMemory plain_model 0xFFFE [0x21; 0x00; 0x40] 3 = Done m' ∧
        readByte m' (u16 (0xFFFE + 2)) = elem [0x21; 0x00; 0x40] 2.
Proof.
  assert (wf plain_model) as Hwf by apply plain_wf_new.
  assert (is_u16 3) as Hs by (unfold is_u16; lia).
  assert (3 <= Z.of_nat (length [0x21; 0x00; 0x40])) as Hl by (cbn [length]; lia).
  assert (0 <= 2 < 3) as Hi by lia.
  split; [exact Hwf|]. split; [exact Hs|]. split; [exact Hl|].
  destruct (memcpyToMemory_readback plain_model 0xFFFE [0x21; 0x00; 0x40] 3 Hwf Hs Hl
              (bulk_locations_distinct plain_model 0xFFFE 3 Hwf Hs I))
    as (m' & Hm & _ & Hread & _).
  exists m'. exact (conj Hm (proj1 (Hread 2 Hi))).
Defined.


(** ** Bulk reads after bulk writes *)

Lemma getBytes_reads (m : MemModel) (a n : Z) :
  wf m → is_u16 a → is_u16 n →
  isPagedMemory m = true ∨ a + n <= 0x10000 →
  ∃ dest, getBytes m a n = Done dest ∧
          Z.of_nat (length dest) = n ∧
          ∀ i, 0 <= i < n → elem dest i = readByte m (u16 (a + i)).
Proof.
  intros Hwf Ha Hn Hcase. destruct m as [p|z]; cbn [getBytes readByte wf] in *.
  - destruct Hcase as [|Hend]; [done|]. unfold is_u16 in *.
    destruct (plain_getBytes_in_range p a n) as (dest & Hd & Hlen & Hget);
      [done|done|lia|done|].
    exists dest. split; [done|]. split; [done|]. intros i Hi.
    rewrite Hget by done. unfold u16. by rewrite Z.mod_small by lia.
  - destruct (zx_getBytes_wraps z a n) as (dest & Hd & Hlen & Hget); [done..|].
    by exists dest.
Qed.

Lemma elem_ext_take (dest Src : list Z) (n : Z) :
  Z.of_nat (length dest) = n → n <= Z.of_nat (length Src) →
  (∀ i, 0 <= i < n → elem dest i = elem Src i) →
  dest = take (Z.to_nat n) Src.
Proof.
  intros Hlen HSrc Hext. apply list_eq. intros j.
  destruct (decide (j < Z.to_nat n)%nat) as [Hj|Hj].
  - rewrite lookup_take_lt by done.
    destruct (elem_in_range dest (Z.of_nat j)) as (x & Hx & Hx'); [lia|].
    destruct (elem_in_range Src (Z.of_nat j)) as (y & Hy & Hy'); [lia|].
    rewrite Nat2Z.id in Hx', Hy'. rewrite Hx', Hy'.
    rewrite Hext, Hy in Hx by lia. by injection Hx as ->.
  - rewrite lookup_take_ge by lia. apply lookup_ge_None_2. lia.
Qed.

(** [getBytes(dest, a, n)] returns the bytes [readByte] gives at
    [(a + i) mod 0x10000], [i < n]: on the banked model for every range, also
    across [0xFFFF], on the flat model for a range that ends at or below
    [0x10000]. *)
Theorem getBytes_bulk_read (m : MemModel) (a n : Z) :
  wf m → is_u16 a → is_u16 n →
  isPagedMemory m = true ∨ a + n <= 0x10000 →
  ∃ dest, getBytes m a n = Done dest ∧
          Z.of_nat (length dest) = n ∧
          ∀ i, 0 <= i < n → elem dest i = readByte m (u16 (a + i)).
Proof. apply getBytes_reads. Qed.

Lemma getBytes_bulk_read_witness :
  wf zx128_model ∧ is_u16 0xFFFF ∧ is_u16 4 ∧
  (isPagedMemory zx128_model = true ∨ 0xFFFF + 4 <= 0x10000) ∧
  ∃ dest, getBytes zx128_model 0xFFFF 4 = Done dest ∧
          elem dest 1 = readByte zx128_model (u16 (0xFFFF + 1)).
Proof.
  assert (wf zx128_model) as Hwf by (apply zx_wf_new; lia).
  assert (is_u16 0xFFFF) as Ha by (unfold is_u16; lia).
  assert (is_u16 4) as Hn by (unfold is_u16; lia).
  assert (isPagedMemory zx128_model = true ∨ 0xFFFF + 4 <= 0x10000) as Hc
    by (left; reflexivity).
  assert (0 <= 1 < 4) as Hi by lia.
  split; [exact Hwf|]. split; [exact Ha|]. split; [exact Hn|]. split; [exact Hc|].
  destruct (getBytes_bulk_read zx128_model 0xFFFF 4 Hwf Ha Hn Hc)
    as (dest & Hd & _ & Hget).
  exists dest. exact (conj Hd (Hget 1 Hi)).
Defined.

(** Round trip of the bulk operations: after [memcpyToMemory(a, Src, n)],
    [getBytes(dest, a, n)] returns the first [n] bytes of [Src]; on the banked
    model when no page is in two slots (also across [0xFFFF]), on the flat
    model when the range ends at or below [0x10000]. *)
Theorem memcpy_getBytes_roundtrip (m : MemModel) (a : Z) (Src : list Z) (n : Z) :
  wf m → is_u16 a → is_u16 n → n <= Z.of_nat (length Src) →
  match m with
  | PlainModel _ => a + n <= 0x10000
  | ZXModel z => NoDup (ZX.SlotPages z)
  end →
  ∃ m', memcpyToMemory m a Src n = Done m' ∧
        getBytes m' a n = Done (take (Z.to_nat n) Src).
Proof.
  intros Hwf Ha Hn HSrc Hcase.
  destruct (memcpy_core m a Src n) as (m' & Hm & Hwf' & Hpaged & Hread & _);
    [done..| |].
  { apply bulk_locations_distinct; [done..|]. by destruct m. }
  exists m'. split; [done|].
  destruct (getBytes_reads m' a n) as (dest & -> & Hlen & Hget); [done..| |].
  { rewrite Hpaged. destruct m; [by right|by left]. }
  f_equal. apply elem_ext_take; [done..|].
  intros i Hi. rewrite Hget by done. by apply Hread.
Qed.

Lemma zx_new_slots_distinct (NPages : Z) : NoDup (ZX.SlotPages (ZX.new NPages)).
Proof.
  cbn [ZX.new ZX.SlotPages].
  repeat (apply NoDup_cons_2;
    [rewrite ?not_elem_of_cons; repeat split; try lia; apply not_elem_of_nil|]).
  apply NoDup_nil_2.
Qed.

Lemma memcpy_getBytes_roundtrip_witness :
  wf zx128_model ∧ is_u16 0xFFFE ∧ is_u16 3 ∧
  3 <= Z.of_nat (length [0xC3; 0x00; 0x80]) ∧
  ∃ m', memcpyToMemory zx128_model 0xFFFE [0xC3; 0x00; 0x80] 3 = Done m' ∧
        getBytes m' 0xFFFE 3 = Done (take (Z.to_nat 3) [0xC3; 0x00; 0x80]).
Proof.
  assert (wf zx128_model) as Hwf by (apply zx_wf_new; lia).
  assert (is_u16 0xFFFE) as Ha by (unfold is_u16; lia).
  assert (is_u16 3) as Hn by (unfold is_u16; lia).
  assert (3 <= Z.of_nat (length [0xC3; 0x00; 0x80])) as Hl by (cbn [length]; lia).
  assert (NoDup (ZX.SlotPages (ZX.new 8))) as Hnd by apply zx_new_slots_distinct.
  split; [exact Hwf|]. split; [exact Ha|]. split; [exact Hn|]. split; [exact Hl|].
  exact (memcpy_getBytes_roundtrip zx128_model 0xFFFE [0xC3; 0x00; 0x80] 3
           Hwf Ha Hn Hl Hnd).
Defined.

(** ** The banked model: slots, pages and the buffer *)

Lemma zx_wf_aliased : ZX.wf zx128_aliased.
Proof.
  unfold ZX.wf, zx128_aliased.
  cbn [ZX.NumSlots ZX.SlotPages ZX.NumPages ZX.Memory ZX.MemUsage].
  rewrite !length_replicate.
  split; [reflexivity|]. split; [reflexivity|].
  split; [repeat constructor; lia|].
  split; [apply Z2Nat.id; unfold ZX.PageSize; lia|].
  split; [reflexivity|]. unfold ZX.PageSize. lia.
Qed.

(** When the slots of two addresses hold the same page and the addresses have
    the same offset in their slots, a byte written at one is read at the
    other, and a committed write marks both. *)
Theorem zx_same_page_aliases (z : ZX.ZXMemModel) (a b v : Z) (e : bool) :
  ZX.wf z → is_u16 a → is_u16 b →
  ZX.getPageNumInSlot z (a / 0x4000) = ZX.getPageNumInSlot z (b / 0x4000) →
  a mod 0x4000 = b mod 0x4000 →
  ∃ m', writeByte (ZXModel z) a v e = Done m' ∧
        readByte m' b = Done v ∧
        (e = false → usedAddr m' b = Done true).
Proof.
  intros Hwf Ha Hb Hpage Hoff.
  destruct (zx_addrToOffset_spec z a) as (p & Hp & _ & Hla); [done..|].
  destruct (zx_addrToOffset_spec z b) as (p' & Hp' & _ & Hlb); [done..|].
  unfold ZX.getPageNumInSlot in Hpage. unfold is_u16 in *.
  rewrite (elem_lookup _ _ p), (elem_lookup _ _ p') in Hpage by (done || zlia).
  injection Hpage as <-. rewrite <- Hoff in Hlb.
  destruct (writeByte_effect (ZXModel z) a v e)
    as (i & m' & Hloc & Hi & Hw & Hwf' & Hsame & Hmem & Huse); [done..|].
  cbn [location] in Hloc. rewrite Hla in Hloc. injection Hloc as <-.
  pose proof (wf_usage_length (ZXModel z) Hwf) as Hlen.
  exists m'. split; [done|].
  rewrite (read_at m' b (p * 0x4000 + a mod 0x4000)),
          (used_at m' b (p * 0x4000 + a mod 0x4000)) by (by rewrite Hsame).
  rewrite Hmem, Huse. split; [by apply elem_insert_eq|].
  intros ->. apply elem_insert_eq. lia.
Qed.

Lemma zx_same_page_aliases_witness :
  ZX.wf zx128_aliased ∧ is_u16 0x4010 ∧ is_u16 0x8010 ∧
  ∃ m', writeByte (ZXModel zx128_aliased) 0x4010 0x5A false = Done m' ∧
        readByte m' 0x8010 = Done 0x5A.
Proof.
  assert (is_u16 0x4010) as Ha by (unfold is_u16; lia).
  assert (is_u16 0x8010) as Hb by (unfold is_u16; lia).
  assert (ZX.getPageNumInSlot zx128_aliased (0x4010 / 0x4000)
          = ZX.getPageNumInSlot zx128_aliased (0x8010 / 0x4000)) as Hp
    by reflexivity.
  assert (0x4010 mod 0x4000 = 0x8010 mod 0x4000) as Ho by reflexivity.
  split; [exact zx_wf_aliased|]. split; [exact Ha|]. split; [exact Hb|].
  destruct (zx_same_page_aliases zx128_aliased 0x4010 0x8010 0x5A false
              zx_wf_aliased Ha Hb Hp Ho) as (m' & Hw & Hr & _).
  exists m'. exact (conj Hw Hr).
Defined.

(** A committed write at a logical address is the page write to the page in
    the slot of the address, at the offset of the address in the slot: the
    two calls return the same model, where the byte is read back at the
    address and marked used. *)
Theorem zx_page_write_seen_through_slot (z : ZX.ZXMemModel) (a v : Z) :
  ZX.wf z → is_u16 a →
  ∃ p z', ZX.getPageNumInSlot z (a / 0x4000) = Done p ∧
          ZX.writeByteToPage z p (a mod 0x4000) v = Done z' ∧
          ZX.writeByte z a v false = Done z' ∧
          ZX.readByte z' a = Done v ∧
          ZX.usedAddr z' a = Done true.
Proof.
  intros Hwf Ha.
  destruct (zx_addrToOffset_spec z a) as (p & Hp & Hpr & Hla); [done..|].
  destruct (writeByte_read (ZXModel z) a v false) as (m' & Hw & _ & Hr & Hu & _);
    [done..|].
  pose proof Hwf as (_ & _ & _ & Hmem & Huse & _). unfold ZX.PageSize in Hmem.
  unfold is_u16 in Ha.
  assert (0 <= a mod 0x4000 < 0x4000) as Hoff by zlia.
  assert (ZX.writeByte z a v false =
          ZX.writeByteToPage z p (a mod 0x4000) v) as Hsame.
  { rewrite zx_writeByteToPage_done by done.
    unfold ZX.writeByte. rewrite Hla. cbn [mbind outcome_bind negb].
    rewrite (assign_in_range (ZX.Memory z)) by lia. cbn [mbind outcome_bind].
    by rewrite (assign_in_range (ZX.MemUsage z)) by lia. }
  cbn [writeByte] in Hw.
  destruct (ZX.writeByte z a v false) as [z'| |]; [|done..].
  cbn in Hw. injection Hw as <-. exists p, z'. rewrite <- Hsame.
  split; [|done]. unfold ZX.getPageNumInSlot. apply elem_lookup; [zlia|done].
Qed.

Lemma zx_page_write_seen_through_slot_witness :
  ZX.wf (ZX.new 8) ∧ is_u16 0xC123 ∧
  ∃ p z', ZX.getPageNumInSlot (ZX.new 8) (0xC123 / 0x4000) = Done p ∧
          ZX.writeByteToPage (ZX.new 8) p (0xC123 mod 0x4000) 0x99 = Done z' ∧
          ZX.readByte z' 0xC123 = Done 0x99.
Proof.
  assert (ZX.wf (ZX.new 8)) as Hwf by (apply zx_wf_new; lia).
  assert (is_u16 0xC123) as Ha by (unfold is_u16; lia).
  split; [exact Hwf|]. split; [exact Ha|].
  destruct (zx_page_write_seen_through_slot (ZX.new 8) 0xC123 0x99 Hwf Ha)
    as (p & z' & Hp & Hw & _ & Hr & _).
  exists p, z'. exact (conj Hp (conj Hw Hr)).
Defined.

Lemma slot_addr (Slot AddrInPage : Z) :
  u16 (size_t (AddrInPage + size_t (size_t Slot * ZX.PageSize))) =
    (Slot * 0x4000 + AddrInPage) mod 0x10000.
Proof.
  unfold u16, size_t, ZX.PageSize.
  change (2 ^ 64) with (0x10000 * 2 ^ 48).
  rewrite (Z.mul_comm 0x10000), !Z.rem_mul_r by lia.
  zlia.
Qed.

(** The slot form of [getBytes] never fails, whatever the slot number: it
    reads from the logical address [(Slot * 0x4000 + AddrInPage) mod 0x10000]
    on, wrapping at [0x10000].  For a slot of the model, the bytes up to the
    end of the slot are those of the page in the slot; a longer read goes on
    in the next slot, not in the page. *)
Theorem zx_getBytes_slot_reads (z : ZX.ZXMemModel) (Slot AddrInPage Size : Z) :
  ZX.wf z → is_u16 AddrInPage → is_u16 Size →
  ∃ dest, ZX.getBytes_slot z Slot AddrInPage Size = Done dest ∧
    Z.of_nat (length dest) = Size ∧
    (∀ i, 0 <= i < Size →
       elem dest i = ZX.readByte z ((Slot * 0x4000 + AddrInPage + i) mod 0x10000)) ∧
    (∀ p i, 0 <= Slot < 4 → ZX.getPageNumInSlot z Slot = Done p →
       0 <= i < Size → AddrInPage + i < 0x4000 →
       elem dest i = elem (ZX.Memory z) (p * 0x4000 + AddrInPage + i)).
Proof.
  intros Hwf HA HSize. unfold is_u16 in *.
  set (addr := (Slot * 0x4000 + AddrInPage) mod 0x10000).
  assert (ZX.getBytes_slot z Slot AddrInPage Size = ZX.getBytes z addr Size) as ->.
  { unfold ZX.getBytes_slot, ZX.getBytes. by rewrite slot_addr. }
  destruct (zx_getBytes_wraps z addr Size) as (dest & Hd & Hlen & Hget);
    [done|unfold is_u16, addr; zlia|done|].
  assert (∀ i, 0 <= i < Size →
            elem dest i = ZX.readByte z ((Slot * 0x4000 + AddrInPage + i) mod 0x10000))
    as Hread.
  { intros i Hi. rewrite Hget by done. f_equal. unfold addr. zlia. }
  exists dest. split; [done|]. split; [done|]. split; [done|].
  intros p i HSlot Hp Hi Hin. rewrite Hread by done.
  rewrite Z.mod_small by lia.
  destruct (zx_addrToOffset_spec z (Slot * 0x4000 + AddrInPage + i))
    as (p' & Hp' & _ & Hoff); [done|unfold is_u16; lia|].
  replace ((Slot * 0x4000 + AddrInPage + i) / 0x4000) with Slot in Hp' by zlia.
  replace ((Slot * 0x4000 + AddrInPage + i) mod 0x4000) with (AddrInPage + i)
    in Hoff by zlia.
  unfold ZX.getPageNumInSlot in Hp. apply elem_Done_inv in Hp as [_ Hp].
  rewrite Hp in Hp'. injection Hp' as <-.
  unfold ZX.readByte. rewrite Hoff. cbn [mbind outcome_bind].
  f_equal. lia.
Qed.

Lemma zx_getBytes_slot_reads_witness :
  ZX.wf (ZX.new 8) ∧ is_u16 0x3FFF ∧ is_u16 2 ∧
  ∃ dest, ZX.getBytes_slot (ZX.new 8) 3 0x3FFF 2 = Done dest ∧
          elem dest 1 = ZX.readByte (ZX.new 8) ((3 * 0x4000 + 0x3FFF + 1) mod 0x10000).
Proof.
  assert (ZX.wf (ZX.new 8)) as Hwf by (apply zx_wf_new; lia).
  assert (is_u16 0x3FFF) as Ha by (unfold is_u16; lia).
  assert (is_u16 2) as Hn by (unfold is_u16; lia).
  assert (0 <= 1 < 2) as Hi by lia.
  split; [exact Hwf|]. split; [exact Ha|]. split; [exact Hn|].
  destruct (zx_getBytes_slot_reads (ZX.new 8) 3 0x3FFF 2 Hwf Ha Hn)
    as (dest & Hd & _ & Hread & _).
  exists dest. exact (conj Hd (Hread 1 Hi)).
Defined.

(** ** The registry: a write and a read through the current model *)

(** A byte written through the registry is read back through it by
    [getBytes], the registry stays active with the same current model, and
    the other models it holds are as they were. *)
Theorem manager_write_then_getBytes
    (mm : MemoryManager.MemoryManager) (m : MemModel) (a v : Z) :
  MemoryManager.getMemModel mm = Done m → wf m → is_u16 a →
  ∃ mm', MemoryManager.writeByte mm a v = Done mm' ∧
         MemoryManager.getBytes mm' a 1 = Done [v] ∧
         MemoryManager.isActive mm' = true ∧
         MemoryManager.CurrentMemModel mm' = MemoryManager.CurrentMemModel mm ∧
         ∀ name, MemoryManager.CurrentMemModel mm ≠ Some name →
                 MemoryManager.MemModels mm' !! name =
                 MemoryManager.MemModels mm !! name.
Proof.
  intros Hget Hwf Ha.
  destruct (writeByte_read m a v false) as (m' & Hw & Hwf' & Hr & _); [done..|].
  unfold MemoryManager.writeByte, MemoryManager.setCurrent. rewrite Hget.
  cbn [mbind outcome_bind]. rewrite Hw. cbn [mbind outcome_bind].
  unfold MemoryManager.getMemModel in Hget.
  destruct (MemoryManager.CurrentMemModel mm) as [cur|] eqn:Hcur; [|done].
  eexists. split; [done|].
  unfold MemoryManager.getBytes, MemoryManager.getMemModel, MemoryManager.isActive.
  cbn [MemoryManager.CurrentMemModel MemoryManager.MemModels].
  rewrite lookup_insert_eq. cbn [from_option mbind outcome_bind].
  split; [|split; [done|split; [done|]]].
  - unfold is_u16 in Ha.
    destruct (getBytes_reads m' a 1) as (dest & -> & Hlen & Hread);
      [done|done|unfold is_u16; lia| |].
    { destruct (isPagedMemory m'); [by left|right; lia]. }
    f_equal. destruct dest as [|x [|y dest]]; cbn [length] in Hlen; try lia.
    specialize (Hread 0). rewrite Z.add_0_r in Hread. unfold u16 in Hread.
    rewrite Z.mod_small, Hr in Hread by lia.
    cbn in Hread. specialize (Hread ltac:(lia)). by injection Hread as ->.
  - intros name Hne. apply lookup_insert_ne. congruence.
Qed.

Lemma manager_write_then_getBytes_witness :
  MemoryManager.getMemModel sample_manager = Done plain_model ∧
  wf plain_model ∧ is_u16 0x8000 ∧
  ∃ mm', MemoryManager.writeByte sample_manager 0x8000 0xC9 = Done mm' ∧
         MemoryManager.getBytes mm' 0x8000 1 = Done [0xC9].
Proof.
  assert (wf plain_model) as Hwf by apply plain_wf_new.
  assert (is_u16 0x8000) as Ha by (unfold is_u16; lia).
  split; [exact sample_manager_current|]. split; [exact Hwf|]. split; [exact Ha|].
  destruct (manager_write_then_getBytes sample_manager plain_model 0x8000 0xC9
              sample_manager_current Hwf Ha) as (mm' & Hw & Hg & _).
  exists mm'. exact (conj Hw Hg).
Defined.

(** ** What the operations keep *)

(** A page write keeps the model well formed and leaves every address that
    is not at the written place, because its slot holds another page or its
    offset in the slot is another one, with its byte and its marker. *)
Theorem zx_page_write_frame (z : ZX.ZXMemModel) (Page Offset v a : Z) :
  ZX.wf z → 0 <= Page < ZX.NumPages z → 0 <= Offset < 0x4000 → is_u16 a →
  ZX.getPageNumInSlot z (a / 0x4000) ≠ Done Page ∨ a mod 0x4000 ≠ Offset →
  ∃ z', ZX.writeByteToPage z Page Offset v = Done z' ∧ ZX.wf z' ∧
        ZX.SlotPages z' = ZX.SlotPages z ∧
        ZX.readByte z' a = ZX.readByte z a ∧
        ZX.usedAddr z' a = ZX.usedAddr z a.
Proof.
  intros Hwf HPage HOffset Ha Hother.
  rewrite zx_writeByteToPage_done by done. eexists. split; [done|].
  pose proof Hwf as (_ & _ & _ & Hmem & Huse & _). unfold ZX.PageSize in Hmem.
  split. { apply zx_wf_with_mem; [done|by rewrite length_insert|by rewrite !length_insert]. }
  split; [done|].
  destruct (zx_addrToOffset_spec z a) as (p & Hp & Hpr & Hla); [done..|].
  unfold is_u16 in Ha.
  assert (p * 0x4000 + a mod 0x4000 ≠ Page * 0x4000 + Offset) as Hne.
  { intros Heq. assert (p = Page ∧ a mod 0x4000 = Offset) as [-> Hoff] by zlia.
    destruct Hother as [Hpage|Hoff']; [|done]. apply Hpage.
    unfold ZX.getPageNumInSlot. apply elem_lookup; [zlia|done]. }
  unfold ZX.readByte, ZX.usedAddr, ZX.addrToOffset in *.
  cbn [ZX.with_mem ZX.SlotPages ZX.Memory ZX.MemUsage].
  destruct (elem (ZX.SlotPages z) (a / ZX.PageSize)) as [q| |]; [|done..].
  cbn [mbind outcome_bind] in *. injection Hla as Hla. rewrite Hla.
  split; apply elem_insert_ne; zlia.
Qed.

Lemma zx_page_write_frame_witness :
  ZX.wf (ZX.new 8) ∧ 0 <= 1 < ZX.NumPages (ZX.new 8) ∧ 0 <= 0x10 < 0x4000 ∧
  is_u16 0x4010 ∧
  ∃ z', ZX.writeByteToPage (ZX.new 8) 1 0x10 0xEE = Done z' ∧
        ZX.readByte z' 0x4010 = ZX.readByte (ZX.new 8) 0x4010.
Proof.
  assert (ZX.wf (ZX.new 8)) as Hwf by (apply zx_wf_new; lia).
  assert (0 <= 1 < ZX.NumPages (ZX.new 8)) as HPage
    by (cbn [ZX.new ZX.NumPages]; lia).
  assert (0 <= 0x10 < 0x4000) as HOff by lia.
  assert (is_u16 0x4010) as Ha by (unfold is_u16; lia).
  assert (ZX.getPageNumInSlot (ZX.new 8) (0x4010 / 0x4000) ≠ Done 1 ∨
          0x4010 mod 0x4000 ≠ 0x10) as Hother by (left; intros [=]).
  split; [exact Hwf|]. split; [exact HPage|]. split; [exact HOff|].
  split; [exact Ha|].
  destruct (zx_page_write_frame (ZX.new 8) 1 0x10 0xEE 0x4010
              Hwf HPage HOff Ha Hother) as (z' & Hw & _ & _ & Hr & _).
  exists z'. exact (conj Hw Hr).
Defined.

(** No operation changes the size of the buffer or breaks the model: after
    [clear], a [writeByte], a [writeWord], [clearEphemerals] or a
    [memsetInMemory], the model is well formed and [getPtrToMem] has as many
    bytes as before, [0x10000] on the flat model and [NumPages * 0x4000] on
    the banked one. *)
Theorem operations_keep_image_size (m : MemModel) :
  wf m →
  Z.of_nat (length (getPtrToMem m)) =
    (if isPagedMemory m then getNumMemPages m * 0x4000 else 0x10000) ∧
  (wf (clear m) ∧ length (getPtrToMem (clear m)) = length (getPtrToMem m)) ∧
  (∀ a v e, is_u16 a →
     ∃ m', writeByte m a v e = Done m' ∧ wf m' ∧
           length (getPtrToMem m') = length (getPtrToMem m)) ∧
  (∀ a w e, is_u16 a → is_u16 w →
     ∃ m', writeWord m a w e = Done m' ∧ wf m' ∧
           length (getPtrToMem m') = length (getPtrToMem m)) ∧
  (∃ m', clearEphemerals m = Done m' ∧ wf m' ∧
         length (getPtrToMem m') = length (getPtrToMem m)) ∧
  (∀ Offset Byte Size, is_u16 Size →
     ∃ m', memsetInMemory m Offset Byte Size = Done m' ∧ wf m' ∧
           length (getPtrToMem m') = length (getPtrToMem m)).
Proof.
  intros Hwf. pose proof (wf_usage_length m Hwf) as Hlen.
  assert (∀ m0 a v e, wf m0 → is_u16 a →
     ∃ m', writeByte m0 a v e = Done m' ∧ wf m' ∧
           length (getPtrToMem m') = length (getPtrToMem m0)) as Hwrite.
  { intros m0 a v e Hwf0 Ha.
    destruct (writeByte_effect m0 a v e) as (i & m' & _ & _ & Hw & Hwf' & _ & Hmem & _);
      [done..|].
    exists m'. split; [done|]. split; [done|]. by rewrite Hmem, length_insert. }
  split; [|split; [|split; [|split; [|split]]]].
  - destruct m as [p|z]; cbn [getPtrToMem isPagedMemory getNumMemPages wf] in *.
    + by apply plain_wf_length.
    + by destruct Hwf as (_ & _ & _ & ? & _).
  - destruct (clear_spec m Hwf) as (Hmem & _ & _ & Hwfc). split; [done|].
    by rewrite Hmem, length_replicate.
  - intros a v e Ha. by apply Hwrite.
  - intros a w e Ha Hw. unfold writeWord.
    destruct (Hwrite m a (u8 (Z.land w 255)) e) as (m1 & -> & Hwf1 & Hl1); [done..|].
    cbn [mbind outcome_bind].
    destruct (Hwrite m1 (u16 (a + 1)) (u8 (Z.shiftr w 8)) e) as (m2 & -> & Hwf2 & Hl2);
      [done|unfold is_u16, u16; zlia|].
    exists m2. split; [done|]. split; [done|]. by rewrite Hl2.
  - destruct (clearEphemerals_spec m Hwf) as (m' & Hc & Hmem & _ & _ & Hwf' & _).
    exists m'. split; [done|]. split; [done|].
    rewrite Hmem. by apply keep_used_length.
  - intros Offset Byte Size HSize. unfold is_u16 in HSize.
    destruct (bulk_loop_done m Offset (λ _, Done Byte) (Z.to_nat Size))
      as (m' & Hm' & Hwf' & _ & _ & Hl & _); [done|by eauto|].
    by exists m'.
Qed.

Lemma operations_keep_image_size_witness :
  wf zx128_model ∧
  Z.of_nat (length (getPtrToMem zx128_model)) =
    (if isPagedMemory zx128_model then getNumMemPages zx128_model * 0x4000
     else 0x10000).
Proof.
  assert (wf zx128_model) as Hwf by (apply zx_wf_new; lia).
  split; [exact Hwf|].
  exact (proj1 (operations_keep_image_size zx128_model Hwf)).
Defined.

(** * The listing writer: macro nesting *)

Lemma endMacro_startMacro (w : Listing.ListingWriter) :
  Listing.endMacro (Listing.startMacro w) = w.
Proof. by destruct w. Qed.

Lemma macro_cancel (w : Listing.ListingWriter) (n k : nat) :
  (k ≤ n)%nat →
  Nat.iter k Listing.endMacro (Nat.iter n Listing.startMacro w) =
    Nat.iter (n - k) Listing.startMacro w.
Proof.
  revert n. induction k as [|k IH]; intros n Hk.
  - by rewrite Nat.sub_0_r.
  - destruct n as [|n]; [lia|].
    rewrite Nat.iter_succ_r.
    change (Nat.iter (S n) Listing.startMacro w)
      with (Listing.startMacro (Nat.iter n Listing.startMacro w)).
    rewrite endMacro_startMacro. by rewrite IH by lia.
Qed.

Lemma startMacro_iter (w : Listing.ListingWriter) (n : nat) :
  length (Listing.MacroStack (Nat.iter n Listing.startMacro w)) =
    (n + length (Listing.MacroStack w))%nat ∧
  ((0 < n)%nat → Listing.InMacro (Nat.iter n Listing.startMacro w) = true).
Proof.
  induction n as [|n [IHl IHm]]; [split; [done|lia]|].
  change (Nat.iter (S n) Listing.startMacro w)
    with (Listing.startMacro (Nat.iter n Listing.startMacro w)).
  set (w' := Nat.iter n Listing.startMacro w) in *.
  unfold Listing.startMacro, Listing.with_macro.
  cbn [Listing.MacroStack Listing.InMacro length]. by rewrite IHl.
Qed.

Lemma endMacro_iter_empty (w : Listing.ListingWriter) (k : nat) :
  Listing.MacroStack w = [] → (0 < k)%nat →
  Listing.InMacro (Nat.iter k Listing.endMacro w) = false ∧
  Listing.MacroStack (Nat.iter k Listing.endMacro w) = [].
Proof.
  intros Hw Hk. destruct k as [|k]; [lia|]. clear Hk.
  induction k as [|k [IHm IHs]].
  - change (Nat.iter 1 Listing.endMacro w) with (Listing.endMacro w).
    unfold Listing.endMacro. by rewrite Hw.
  - change (Nat.iter (S (S k)) Listing.endMacro w)
      with (Listing.endMacro (Nat.iter (S k) Listing.endMacro w)).
    set (w' := Nat.iter (S k) Listing.endMacro w) in *.
    unfold Listing.endMacro. by rewrite IHs.
Qed.

Lemma macro_nesting_balanced_aux (w : Listing.ListingWriter) (n : nat) :
  Nat.iter n Listing.endMacro (Nat.iter n Listing.startMacro w) = w.
Proof. rewrite macro_cancel by done. by rewrite Nat.sub_diag. Qed.

(** After [n] calls of [startMacro()] and then [n] calls of [endMacro()] the
    writer is as it was before, whatever its state and its stack were; each
    further pair of calls is undone the same way. *)
Theorem macro_nesting_balanced (w : Listing.ListingWriter) (n k : nat) :
  (k ≤ n)%nat →
  Nat.iter n Listing.endMacro (Nat.iter n Listing.startMacro w) = w ∧
  Nat.iter k Listing.endMacro (Nat.iter n Listing.startMacro w) =
    Nat.iter (n - k) Listing.startMacro w.
Proof.
  intros Hk. split; [apply macro_nesting_balanced_aux|by apply macro_cancel].
Qed.

Lemma macro_nesting_balanced_witness :
  (2 ≤ 3)%nat ∧
  Nat.iter 3 Listing.endMacro (Nat.iter 3 Listing.startMacro sample_listing) =
    sample_listing.
Proof.
  assert (2 ≤ 3)%nat as Hk by lia.
  split; [exact Hk|].
  exact (proj1 (macro_nesting_balanced sample_listing 3 2 Hk)).
Defined.

(** From a writer with an empty stack: after [n] [startMacro()] calls and
    [k] [endMacro()] calls, [InMacro] is true while [k < n], is what it was
    at the start when [k = n], and is false after an [endMacro()] too many,
    which finds the stack empty and leaves it empty; the stack holds
    [n - k] entries. *)
Theorem macro_depth (w : Listing.ListingWriter) (n k : nat) :
  Listing.MacroStack w = [] →
  Listing.InMacro (Nat.iter k Listing.endMacro (Nat.iter n Listing.startMacro w)) =
    (if decide (k < n)%nat then true
     else if decide (k = n) then Listing.InMacro w else false) ∧
  length (Listing.MacroStack
            (Nat.iter k Listing.endMacro (Nat.iter n Listing.startMacro w))) =
    (n - k)%nat.
Proof.
  intros Hw. destruct (decide (k ≤ n)%nat) as [Hle|Hgt].
  - rewrite macro_cancel by done.
    destruct (startMacro_iter w (n - k)) as [Hlen Hin]. rewrite Hlen, Hw.
    split; [|cbn; lia]. case_decide.
    + apply Hin. lia.
    + rewrite decide_True by lia. by replace (n - k)%nat with 0%nat by lia.
  - replace k with ((k - n) + n)%nat by lia. rewrite Nat.iter_add.
    rewrite macro_nesting_balanced_aux.
    destruct (endMacro_iter_empty w (k - n)) as [Hin Hst]; [done|lia|].
    rewrite Hin, Hst. rewrite decide_False by lia. rewrite decide_False by lia.
    split; [done|cbn; lia].
Qed.

Lemma macro_depth_witness :
  Listing.MacroStack sample_listing = [] ∧
  Listing.InMacro
    (Nat.iter 1 Listing.endMacro (Nat.iter 2 Listing.startMacro sample_listing)) =
    true.
Proof.
  assert (Listing.MacroStack sample_listing = []) as Hw by reflexivity.
  split; [exact Hw|].
  exact (proj1 (macro_depth sample_listing 2 1 Hw)).
Defined.
